(** * StableMonitor: the [useStableMonitor] hook and the wallet view

    A shallow embedding of the client-side session logic of the
    StableMonitor front end (hook [useStableMonitor] and the component
    [StableMonitorDemo]).

    The hook is single-threaded and cooperative: every operation runs
    synchronously up to its first [await], and is resumed later when the
    awaited external call settles.  The embedding follows that shape:

    - the React state cells and reference cells of the hook are the fields
      of the record [Hook];
    - the body of an operation is a command in a small state-and-output
      monad [Cmd]; the output records what the command did to the outside
      (status messages, external calls, refresh invocations, rejections
      that nobody handles);
    - a suspended asynchronous run is a value of [Task]: one constructor per
      [await] of the source, holding the variables the continuation has
      captured;
    - [resume] is the continuation of a task on the reply of the call it
      waits for, and [step] is the transition function of the whole hook
      on the events of its environment ([Switch], [Invoke], [Settle]). *)

From stdpp Require Import base strings list gmap pretty.
From Stdlib Require Import Ascii ZArith Lia Zmod.

(** ** JavaScript values *)

(** [ethers.ZeroHash] and [ethers.ZeroAddress]. *)
Definition ZeroHash : string :=
  "0x0000000000000000000000000000000000000000000000000000000000000000".
Definition ZeroAddress : string :=
  "0x0000000000000000000000000000000000000000".

(** Truthiness of a [string | undefined]: [undefined] and the empty string
    are falsy. *)
Definition truthy (s : option string) : bool :=
  match s with
  | Some s => negb (bool_decide (s = ""))
  | None => false
  end.

(** Truthiness of a [number | undefined] holding an integer. *)
Definition truthyZ (n : option Z) : bool :=
  match n with
  | Some n => negb (bool_decide (n = 0%Z))
  | None => false
  end.

(** [String.prototype.toLowerCase] on ASCII text. *)
Definition lower_ascii (c : ascii) : ascii :=
  let n := nat_of_ascii c in
  if (65 <=? n)%nat && (n <=? 90)%nat then ascii_of_nat (n + 32) else c.

Fixpoint toLowerCase (s : string) : string :=
  match s with
  | EmptyString => EmptyString
  | String c r => String (lower_ascii c) (toLowerCase r)
  end.

(** A JavaScript [number] as the view hands it to the hook: the result of
    [parseInt], that is an integer or [NaN].  Every comparison with [NaN]
    is false. *)
Inductive number :=
| Num (z : Z)
| NaN.

Definition num_le0 (n : number) : bool :=
  match n with Num z => (z <=? 0)%Z | NaN => false end.
Definition num_lt0 (n : number) : bool :=
  match n with Num z => (z <? 0)%Z | NaN => false end.
Definition show_number (n : number) : string :=
  match n with Num z => pretty z | NaN => "NaN" end.

(** The values a decryption can hand back ([ClearValueType.clear] is
    [string | bigint | boolean]); the source also tests for [number], and
    a handle missing from the result object reads as [undefined].  A
    [CNumber] holds an integer-valued number. *)
Inductive Clear :=
| CUndefined
| CString (s : string)
| CBigInt (n : Z)
| CBoolean (b : bool)
| CNumber (n : Z).

(** The text of a clear value inside a template or a concatenation. *)
Definition show_clear (c : Clear) : string :=
  match c with
  | CUndefined => "undefined"
  | CString s => s
  | CBigInt n => pretty n
  | CBoolean true => "true"
  | CBoolean false => "false"
  | CNumber n => pretty n
  end.

(** Truthiness of a clear value (the condition of [c ? a : b]). *)
Definition clear_truthy (c : Clear) : bool :=
  match c with
  | CUndefined => false
  | CString s => negb (bool_decide (s = ""))
  | CBigInt n => negb (bool_decide (n = 0%Z))
  | CBoolean b => b
  | CNumber n => negb (bool_decide (n = 0%Z))
  end.

(** ** Data model *)

Record ClearValueType := {
  handle : string;
  clear : Clear
}.

(** An entry of the generated table [StableMonitorAddresses]. *)
Record Entry := {
  entry_address : string;
  entry_chainId : Z;
  entry_chainName : string
}.

(** [StableMonitorInfoType] without the ABI, which is the same constant in
    every value of the type. *)
Record StableMonitorInfoType := {
  info_address : option string;
  info_chainId : option Z;
  info_chainName : option string
}.

(** [getStableMonitorByChainId], with the generated table as a parameter. *)
Definition getStableMonitorByChainId
    (StableMonitorAddresses : gmap Z Entry) (chainId : option Z)
    : StableMonitorInfoType :=
  match chainId with
  | None => {| info_address := None; info_chainId := None; info_chainName := None |}
  | Some c =>
      if bool_decide (c = 0%Z) then
        {| info_address := None; info_chainId := None; info_chainName := None |}
      else
        match StableMonitorAddresses !! c with
        | None =>
            {| info_address := None; info_chainId := Some c; info_chainName := None |}
        | Some entry =>
            if bool_decide (entry_address entry = ZeroAddress) then
              {| info_address := None; info_chainId := Some c; info_chainName := None |}
            else
              {| info_address := Some (entry_address entry);
                 info_chainId := Some (entry_chainId entry);
                 info_chainName := Some (entry_chainName entry) |}
        end
  end.

(** A signer object, identified by the account it signs for. *)
Definition Signer := string.

(** [FhevmDecryptionSignature]: the credential handed to [userDecrypt]. *)
Record FhevmDecryptionSignature := {
  privateKey : string;
  publicKey : string;
  signature : string;
  contractAddresses : list string;
  sig_userAddress : string;
  startTimestamp : Z;
  durationDays : Z
}.

(** What [iface.parseLog] makes of a log: it throws, returns [null], or
    returns the event name and its arguments. *)
Inductive ParsedLog :=
| ParseThrows
| ParseNull
| Parsed (name : string) (args : list string).

Record Log := {
  log_address : option string;
  log_parsed : ParsedLog
}.

(** A transaction receipt; [status] is [number | null]. *)
Record Receipt := {
  status : option Z;
  logs : list Log
}.

(** The parameters of the hook, as of the last render. *)
Record Params := {
  instance : bool;
  chainId : option Z;
  ethersSigner : option Signer;
  ethersReadonlyProvider : option string;
  userAddress : option string
}.

(** The busy flags.  Each exists twice in the hook, as a state cell
    ([isIssuing]) and as a reference cell ([isIssuingRef]). *)
Inductive Busy :=
| Refreshing | Decrypting | Issuing | Transferring | CheckingRisk
| UpdatingThreshold.

Record Flags := {
  isRefreshing : bool;
  isDecrypting : bool;
  isIssuing : bool;
  isTransferring : bool;
  isCheckingRisk : bool;
  isUpdatingThreshold : bool
}.

Definition flag (k : Busy) (f : Flags) : bool :=
  match k with
  | Refreshing => isRefreshing f
  | Decrypting => isDecrypting f
  | Issuing => isIssuing f
  | Transferring => isTransferring f
  | CheckingRisk => isCheckingRisk f
  | UpdatingThreshold => isUpdatingThreshold f
  end.

Definition set_flag (k : Busy) (b : bool) (f : Flags) : Flags :=
  match k with
  | Refreshing =>
      {| isRefreshing := b; isDecrypting := isDecrypting f;
         isIssuing := isIssuing f; isTransferring := isTransferring f;
         isCheckingRisk := isCheckingRisk f;
         isUpdatingThreshold := isUpdatingThreshold f |}
  | Decrypting =>
      {| isRefreshing := isRefreshing f; isDecrypting := b;
         isIssuing := isIssuing f; isTransferring := isTransferring f;
         isCheckingRisk := isCheckingRisk f;
         isUpdatingThreshold := isUpdatingThreshold f |}
  | Issuing =>
      {| isRefreshing := isRefreshing f; isDecrypting := isDecrypting f;
         isIssuing := b; isTransferring := isTransferring f;
         isCheckingRisk := isCheckingRisk f;
         isUpdatingThreshold := isUpdatingThreshold f |}
  | Transferring =>
      {| isRefreshing := isRefreshing f; isDecrypting := isDecrypting f;
         isIssuing := isIssuing f; isTransferring := b;
         isCheckingRisk := isCheckingRisk f;
         isUpdatingThreshold := isUpdatingThreshold f |}
  | CheckingRisk =>
      {| isRefreshing := isRefreshing f; isDecrypting := isDecrypting f;
         isIssuing := isIssuing f; isTransferring := isTransferring f;
         isCheckingRisk := b;
         isUpdatingThreshold := isUpdatingThreshold f |}
  | UpdatingThreshold =>
      {| isRefreshing := isRefreshing f; isDecrypting := isDecrypting f;
         isIssuing := isIssuing f; isTransferring := isTransferring f;
         isCheckingRisk := isCheckingRisk f;
         isUpdatingThreshold := b |}
  end.

Definition idle : Flags :=
  {| isRefreshing := false; isDecrypting := false; isIssuing := false;
     isTransferring := false; isCheckingRisk := false;
     isUpdatingThreshold := false |}.

Global Instance Busy_eq_dec : EqDecision Busy.
Proof. solve_decision. Defined.

(** ** Suspended runs, external calls and their replies *)

(** The session an asynchronous run has captured when it started
    ([thisChainId], [thisContractAddress], [thisEthersSigner]). *)
Record Session := {
  thisChainId : option Z;
  thisContractAddress : string;
  thisEthersSigner : Signer
}.

(** [issue], [transfer] and [updateRiskThreshold] are one body written three
    times; [MutOp] says which copy runs. *)
Inductive MutOp := OpIssue | OpTransfer | OpUpdateRiskThreshold.

(** What a run of a mutating operation has captured: its arguments, its
    session, and the [userAddress] and [ethersReadonlyProvider] inside the
    [refreshBalance] closure it will call. *)
Record MutArgs := {
  mut_op : MutOp;
  mut_to : string;
  mut_amount : number;
  mut_session : Session;
  mut_userAddress : option string;
  mut_provider : option string
}.

(** A suspended run: one constructor per [await] of the source. *)
Inductive Task :=
(* refreshBalance: Promise.all([getBalance, getTotalSupply, getRiskThreshold]) *)
| RefreshFetch (chain : Z) (contract : string) (user : string)
(* decryptBalance: await loadOrSign / await userDecrypt *)
| BalanceSign (cap : Session) (thisBalanceHandle : string)
| BalanceDecrypt (cap : Session) (thisBalanceHandle : string)
    (sig : FhevmDecryptionSignature)
(* decryptRiskThreshold: five awaits *)
| ThresholdGrant (cap : Session)
| ThresholdGrantWait (cap : Session) (hash : string)
| ThresholdFetch (cap : Session)
| ThresholdSign (cap : Session) (h : string)
| ThresholdDecrypt (cap : Session) (h : string)
    (sig : FhevmDecryptionSignature)
(* issue / transfer / updateRiskThreshold: timer, encrypt, send, tx.wait *)
| MutDelay (a : MutArgs)
| MutEncrypt (a : MutArgs)
| MutSubmit (a : MutArgs) (encHandle inputProof : string)
| MutConfirm (a : MutArgs) (hash : string)
(* checkRisk: send, tx.wait, loadOrSign, userDecrypt *)
| RiskSubmit (cap : Session) (user : string)
| RiskConfirm (cap : Session) (hash : string)
| RiskSign (cap : Session) (riskHandle : string)
| RiskDecrypt (cap : Session) (riskHandle : string)
    (sig : FhevmDecryptionSignature).

(** The calls that leave the hook.  [CallEncrypt] stands for the three
    consecutive calls [createEncryptedInput], [add32] and [encrypt]: all
    three sit in the same [try] with nothing between them, so a throw of
    any of them is the rejection of the whole. *)
Inductive ExtCall :=
| CallGetBalance (contract user : string)
| CallGetTotalSupply (contract : string)
| CallGetRiskThreshold (contract : string)
| CallLoadOrSign (contract : string) (signer : Signer)
| CallUserDecrypt (h contract : string) (sig : FhevmDecryptionSignature)
| CallSetTimeout (ms : Z)
| CallEncrypt (contract user : string) (amount : number)
| CallIssue (contract to encHandle inputProof : string)
| CallTransfer (contract to encHandle inputProof : string)
| CallUpdateRiskThreshold (contract encHandle inputProof : string)
| CallPerformRiskCheck (contract user : string)
| CallGetRiskThresholdForCaller (contract : string)
| CallTxWait (hash : string).

(** How an awaited call settles.  [Rejected e] is a rejection (or a throw);
    [e] is the text the handlers print for it ([e.message || e]). *)
Inductive Reply :=
| Fired
| Handles (balance totalSupply riskThreshold : string)
| Signature (sig : option FhevmDecryptionSignature)
| Decrypted (res : gmap string Clear)
| Encrypted (encHandle inputProof : string)
| Sent (hash : string)
| Mined (receipt : option Receipt)
| Fetched (h : string)
| Rejected (e : string).

(** What a command does to the outside. *)
Inductive Obs :=
| Message (m : string)        (* setMessage(m) *)
| Called (c : ExtCall)        (* an external call leaves the hook *)
| RefreshInvoked              (* refreshBalance() is invoked *)
| Unhandled (e : string).     (* the promise of run() rejects, nobody listens *)

(** How a piece of an [async] body ends. *)
Inductive Completion :=
| Suspended (t : Task)
| Returned
| Thrown (e : string).

(** ** The state of the hook *)

(** The cells of the hook: the handles and clear values ([useState]), the
    reference cell [clearBalanceRef], the six busy flags as state cells
    ([busy]) and as reference cells ([busyRef]), the status message, and
    [stableMonitorRef].  A state cell is read here at its latest value:
    the closures the view calls are those of the latest render. *)
Record Hook := {
  balanceHandle : option string;
  clearBalance : option ClearValueType;
  totalSupplyHandle : option string;
  riskThresholdHandle : option string;
  clearRiskThreshold : option ClearValueType;
  riskFlagHandle : option string;
  clearRiskFlag : option ClearValueType;
  clearBalanceRef : option ClearValueType;
  busy : Flags;
  busyRef : Flags;
  message : string;
  stableMonitorRef : option StableMonitorInfoType
}.

(** Writing one cell. *)
Definition with_balanceHandle (v : option string) (h : Hook) : Hook :=
  {| balanceHandle := v; clearBalance := clearBalance h;
     totalSupplyHandle := totalSupplyHandle h;
     riskThresholdHandle := riskThresholdHandle h;
     clearRiskThreshold := clearRiskThreshold h;
     riskFlagHandle := riskFlagHandle h; clearRiskFlag := clearRiskFlag h;
     clearBalanceRef := clearBalanceRef h; busy := busy h;
     busyRef := busyRef h; message := message h;
     stableMonitorRef := stableMonitorRef h |}.

Definition with_clearBalance (v : option ClearValueType) (h : Hook) : Hook :=
  {| balanceHandle := balanceHandle h; clearBalance := v;
     totalSupplyHandle := totalSupplyHandle h;
     riskThresholdHandle := riskThresholdHandle h;
     clearRiskThreshold := clearRiskThreshold h;
     riskFlagHandle := riskFlagHandle h; clearRiskFlag := clearRiskFlag h;
     clearBalanceRef := clearBalanceRef h; busy := busy h;
     busyRef := busyRef h; message := message h;
     stableMonitorRef := stableMonitorRef h |}.

Definition with_totalSupplyHandle (v : option string) (h : Hook) : Hook :=
  {| balanceHandle := balanceHandle h; clearBalance := clearBalance h;
     totalSupplyHandle := v; riskThresholdHandle := riskThresholdHandle h;
     clearRiskThreshold := clearRiskThreshold h;
     riskFlagHandle := riskFlagHandle h; clearRiskFlag := clearRiskFlag h;
     clearBalanceRef := clearBalanceRef h; busy := busy h;
     busyRef := busyRef h; message := message h;
     stableMonitorRef := stableMonitorRef h |}.

Definition with_riskThresholdHandle (v : option string) (h : Hook) : Hook :=
  {| balanceHandle := balanceHandle h; clearBalance := clearBalance h;
     totalSupplyHandle := totalSupplyHandle h; riskThresholdHandle := v;
     clearRiskThreshold := clearRiskThreshold h;
     riskFlagHandle := riskFlagHandle h; clearRiskFlag := clearRiskFlag h;
     clearBalanceRef := clearBalanceRef h; busy := busy h;
     busyRef := busyRef h; message := message h;
     stableMonitorRef := stableMonitorRef h |}.

Definition with_clearRiskThreshold (v : option ClearValueType) (h : Hook) : Hook :=
  {| balanceHandle := balanceHandle h; clearBalance := clearBalance h;
     totalSupplyHandle := totalSupplyHandle h;
     riskThresholdHandle := riskThresholdHandle h; clearRiskThreshold := v;
     riskFlagHandle := riskFlagHandle h; clearRiskFlag := clearRiskFlag h;
     clearBalanceRef := clearBalanceRef h; busy := busy h;
     busyRef := busyRef h; message := message h;
     stableMonitorRef := stableMonitorRef h |}.

Definition with_riskFlagHandle (v : option string) (h : Hook) : Hook :=
  {| balanceHandle := balanceHandle h; clearBalance := clearBalance h;
     totalSupplyHandle := totalSupplyHandle h;
     riskThresholdHandle := riskThresholdHandle h;
     clearRiskThreshold := clearRiskThreshold h; riskFlagHandle := v;
     clearRiskFlag := clearRiskFlag h; clearBalanceRef := clearBalanceRef h;
     busy := busy h; busyRef := busyRef h; message := message h;
     stableMonitorRef := stableMonitorRef h |}.

Definition with_clearRiskFlag (v : option ClearValueType) (h : Hook) : Hook :=
  {| balanceHandle := balanceHandle h; clearBalance := clearBalance h;
     totalSupplyHandle := totalSupplyHandle h;
     riskThresholdHandle := riskThresholdHandle h;
     clearRiskThreshold := clearRiskThreshold h;
     riskFlagHandle := riskFlagHandle h; clearRiskFlag := v;
     clearBalanceRef := clearBalanceRef h; busy := busy h;
     busyRef := busyRef h; message := message h;
     stableMonitorRef := stableMonitorRef h |}.

Definition with_clearBalanceRef (v : option ClearValueType) (h : Hook) : Hook :=
  {| balanceHandle := balanceHandle h; clearBalance := clearBalance h;
     totalSupplyHandle := totalSupplyHandle h;
     riskThresholdHandle := riskThresholdHandle h;
     clearRiskThreshold := clearRiskThreshold h;
     riskFlagHandle := riskFlagHandle h; clearRiskFlag := clearRiskFlag h;
     clearBalanceRef := v; busy := busy h; busyRef := busyRef h;
     message := message h; stableMonitorRef := stableMonitorRef h |}.

Definition with_busy (v : Flags) (h : Hook) : Hook :=
  {| balanceHandle := balanceHandle h; clearBalance := clearBalance h;
     totalSupplyHandle := totalSupplyHandle h;
     riskThresholdHandle := riskThresholdHandle h;
     clearRiskThreshold := clearRiskThreshold h;
     riskFlagHandle := riskFlagHandle h; clearRiskFlag := clearRiskFlag h;
     clearBalanceRef := clearBalanceRef h; busy := v; busyRef := busyRef h;
     message := message h; stableMonitorRef := stableMonitorRef h |}.

Definition with_busyRef (v : Flags) (h : Hook) : Hook :=
  {| balanceHandle := balanceHandle h; clearBalance := clearBalance h;
     totalSupplyHandle := totalSupplyHandle h;
     riskThresholdHandle := riskThresholdHandle h;
     clearRiskThreshold := clearRiskThreshold h;
     riskFlagHandle := riskFlagHandle h; clearRiskFlag := clearRiskFlag h;
     clearBalanceRef := clearBalanceRef h; busy := busy h; busyRef := v;
     message := message h; stableMonitorRef := stableMonitorRef h |}.

Definition with_message (v : string) (h : Hook) : Hook :=
  {| balanceHandle := balanceHandle h; clearBalance := clearBalance h;
     totalSupplyHandle := totalSupplyHandle h;
     riskThresholdHandle := riskThresholdHandle h;
     clearRiskThreshold := clearRiskThreshold h;
     riskFlagHandle := riskFlagHandle h; clearRiskFlag := clearRiskFlag h;
     clearBalanceRef := clearBalanceRef h; busy := busy h;
     busyRef := busyRef h; message := v;
     stableMonitorRef := stableMonitorRef h |}.

Definition with_stableMonitorRef (v : option StableMonitorInfoType) (h : Hook) : Hook :=
  {| balanceHandle := balanceHandle h; clearBalance := clearBalance h;
     totalSupplyHandle := totalSupplyHandle h;
     riskThresholdHandle := riskThresholdHandle h;
     clearRiskThreshold := clearRiskThreshold h;
     riskFlagHandle := riskFlagHandle h; clearRiskFlag := clearRiskFlag h;
     clearBalanceRef := clearBalanceRef h; busy := busy h;
     busyRef := busyRef h; message := message h; stableMonitorRef := v |}.

(** The hook with its parameters, the generated address table and the
    asynchronous runs that are in flight. *)
Record Sys := {
  params : Params;
  StableMonitorAddresses : gmap Z Entry;
  hook : Hook;
  pool : gmap nat Task;
  nextId : nat
}.

Definition with_hook (f : Hook -> Hook) (s : Sys) : Sys :=
  {| params := params s; StableMonitorAddresses := StableMonitorAddresses s;
     hook := f (hook s); pool := pool s; nextId := nextId s |}.

Definition with_params (p : Params) (s : Sys) : Sys :=
  {| params := p; StableMonitorAddresses := StableMonitorAddresses s;
     hook := hook s; pool := pool s; nextId := nextId s |}.

Definition with_pool (m : gmap nat Task) (s : Sys) : Sys :=
  {| params := params s; StableMonitorAddresses := StableMonitorAddresses s;
     hook := hook s; pool := m; nextId := nextId s |}.

Definition add_task (t : Task) (s : Sys) : Sys :=
  {| params := params s; StableMonitorAddresses := StableMonitorAddresses s;
     hook := hook s; pool := <[nextId s := t]> (pool s);
     nextId := S (nextId s) |}.

(** ** Commands *)

Definition Cmd (A : Type) : Type := Sys -> A * Sys * list Obs.

Global Instance Cmd_ret : MRet Cmd := fun A a s => (a, s, []).
Global Instance Cmd_bind : MBind Cmd := fun A B k c s =>
  let '(a, s1, o1) := c s in
  let '(b, s2, o2) := k a s1 in
  (b, s2, o1 ++ o2).

Definition get : Cmd Sys := fun s => (s, s, []).
Definition modify (f : Sys -> Sys) : Cmd unit := fun s => ((), f s, []).
Definition emit (o : Obs) : Cmd unit := fun s => ((), s, [o]).

Definition setMessage (m : string) : Cmd unit :=
  modify (with_hook (with_message m)) ;; emit (Message m).
Definition setBalanceHandle (v : option string) : Cmd unit :=
  modify (with_hook (with_balanceHandle v)).
Definition setTotalSupplyHandle (v : option string) : Cmd unit :=
  modify (with_hook (with_totalSupplyHandle v)).
Definition setRiskThresholdHandle (v : option string) : Cmd unit :=
  modify (with_hook (with_riskThresholdHandle v)).
Definition setRiskFlagHandle (v : option string) : Cmd unit :=
  modify (with_hook (with_riskFlagHandle v)).
Definition setClearBalance (v : option ClearValueType) : Cmd unit :=
  modify (with_hook (with_clearBalance v)).
Definition setClearBalanceRef (v : option ClearValueType) : Cmd unit :=
  modify (with_hook (with_clearBalanceRef v)).
Definition setClearRiskThreshold (v : option ClearValueType) : Cmd unit :=
  modify (with_hook (with_clearRiskThreshold v)).
Definition setClearRiskFlag (v : option ClearValueType) : Cmd unit :=
  modify (with_hook (with_clearRiskFlag v)).
Definition setStableMonitorRef (v : option StableMonitorInfoType) : Cmd unit :=
  modify (with_hook (with_stableMonitorRef v)).

(** [isXRef.current = b; setIsX(b)]: the source always writes the reference
    cell and the state cell of a flag together, in this order. *)
Definition setBusy (k : Busy) (b : bool) : Cmd unit :=
  modify (with_hook (fun h => with_busyRef (set_flag k b (busyRef h)) h)) ;;
  modify (with_hook (fun h => with_busy (set_flag k b (busy h)) h)).

(** ** Staleness *)

(** [stableMonitorRef.current?.address]; after a render it is also what the
    closures read as [stableMonitor.address]. *)
Definition sm_address (s : Sys) : option string :=
  stableMonitorRef (hook s) ≫= info_address.

Definition sm_chainId (s : Sys) : option Z :=
  stableMonitorRef (hook s) ≫= info_chainId.

(** Modelled from the spec: [sameChain.current] and [sameSigner.current]
    come from the wallet hook [useMetaMaskEthersSigner], which is not among
    the sources; by the glossary entry for the staleness guard they tell
    whether the chain, respectively the signer, of the session is
    unchanged, that is, equal to the current one. *)
Definition sameChain (s : Sys) (c : option Z) : bool :=
  bool_decide (c = chainId (params s)).
Definition sameSigner (s : Sys) (g : option Signer) : bool :=
  bool_decide (g = ethersSigner (params s)).

(** [isStale], the same arrow function in every asynchronous run. *)
Definition isStale (cap : Session) (s : Sys) : bool :=
  negb (bool_decide (Some (thisContractAddress cap) = sm_address s))
  || negb (sameChain s (thisChainId cap))
  || negb (sameSigner s (Some (thisEthersSigner cap))).

(** ** Plumbing of asynchronous runs *)

(** The calls a suspended run is waiting for. *)
Definition awaits (t : Task) : list ExtCall :=
  match t with
  | RefreshFetch _ contract user =>
      [CallGetBalance contract user; CallGetTotalSupply contract;
       CallGetRiskThreshold contract]
  | BalanceSign cap _ =>
      [CallLoadOrSign (thisContractAddress cap) (thisEthersSigner cap)]
  | BalanceDecrypt cap h sig => [CallUserDecrypt h (thisContractAddress cap) sig]
  | ThresholdGrant cap => [CallGetRiskThresholdForCaller (thisContractAddress cap)]
  | ThresholdGrantWait _ hash => [CallTxWait hash]
  | ThresholdFetch cap => [CallGetRiskThreshold (thisContractAddress cap)]
  | ThresholdSign cap _ =>
      [CallLoadOrSign (thisContractAddress cap) (thisEthersSigner cap)]
  | ThresholdDecrypt cap h sig => [CallUserDecrypt h (thisContractAddress cap) sig]
  | MutDelay _ => [CallSetTimeout 100]
  | MutEncrypt a =>
      [CallEncrypt (thisContractAddress (mut_session a))
         (thisEthersSigner (mut_session a)) (mut_amount a)]
  | MutSubmit a encHandle inputProof =>
      let contract := thisContractAddress (mut_session a) in
      match mut_op a with
      | OpIssue => [CallIssue contract (mut_to a) encHandle inputProof]
      | OpTransfer => [CallTransfer contract (mut_to a) encHandle inputProof]
      | OpUpdateRiskThreshold =>
          [CallUpdateRiskThreshold contract encHandle inputProof]
      end
  | MutConfirm _ hash => [CallTxWait hash]
  | RiskSubmit cap user => [CallPerformRiskCheck (thisContractAddress cap) user]
  | RiskConfirm _ hash => [CallTxWait hash]
  | RiskSign cap _ =>
      [CallLoadOrSign (thisContractAddress cap) (thisEthersSigner cap)]
  | RiskDecrypt cap h sig => [CallUserDecrypt h (thisContractAddress cap) sig]
  end.

Definition emit_calls (cs : list ExtCall) : Cmd unit :=
  fun s => ((), s, Called <$> cs).

(** [await]: the calls leave, the run is suspended. *)
Definition suspend (t : Task) : Cmd Completion :=
  emit_calls (awaits t) ;; mret (Suspended t).

(** [try { body } finally { finalizer }]: the finalizer runs when the body
    is left, not when it is suspended at an [await]; a throw goes on
    after it. *)
Definition try_finally (body : Cmd Completion) (finalizer : Cmd unit)
    : Cmd Completion :=
  r ← body;
  match r with
  | Suspended t => mret (Suspended t)
  | Returned => finalizer ;; mret Returned
  | Thrown e => finalizer ;; mret (Thrown e)
  end.

(** [try { body } catch (e) { handler } finally { finalizer }]. *)
Definition try_catch_finally (body : Cmd Completion)
    (handler : string -> Cmd unit) (finalizer : Cmd unit) : Cmd Completion :=
  r ← body;
  match r with
  | Suspended t => mret (Suspended t)
  | Returned => finalizer ;; mret Returned
  | Thrown e => handler e ;; finalizer ;; mret Returned
  end.

(** [promise.then(body).catch(handler)]. *)
Definition then_catch (body : Cmd Completion) (handler : string -> Cmd unit)
    : Cmd Completion :=
  r ← body;
  match r with
  | Thrown e => handler e ;; mret Returned
  | _ => mret r
  end.

(** The end of a stretch of [run()]: the caller wrote [run();] and attached
    nothing to the promise, so a throw that leaves the body is a rejection
    nobody handles. *)
Definition settle_async (c : Cmd Completion) : Cmd (option Task) :=
  r ← c;
  match r with
  | Suspended t => mret (Some t)
  | Returned => mret None
  | Thrown e => emit (Unhandled e) ;; mret None
  end.

(** The first stretch of a run, executed inside the call that starts it. *)
Definition launch (c : Cmd Completion) : Cmd unit :=
  t ← settle_async c;
  match t with
  | Some t => modify (add_task t)
  | None => mret ()
  end.

(** ** refreshBalance *)

(** [userAddress] and [ethersReadonlyProvider] are the values inside the
    closure that is called.  The output [RefreshInvoked] marks the call. *)
Definition refreshBalance (userAddress : option string)
    (ethersReadonlyProvider : option string) : Cmd unit :=
  emit RefreshInvoked ;;
  s ← get;
  if flag Refreshing (busyRef (hook s)) || negb (truthy userAddress) then
    mret ()
  else if negb (bool_decide (is_Some (stableMonitorRef (hook s))))
          || negb (truthyZ (sm_chainId s))
          || negb (truthy (sm_address s))
          || negb (bool_decide (is_Some ethersReadonlyProvider)) then
    setBalanceHandle None
  else
    match sm_chainId s, sm_address s, userAddress with
    | Some thisChainId, Some thisContractAddress, Some user =>
        setBusy Refreshing true ;;
        launch (suspend (RefreshFetch thisChainId thisContractAddress user))
    | _, _, _ => mret ()
    end.

(** The [.then] handler of [refreshBalance]. *)
Definition refreshBalance_then (chain : Z) (contract : string)
    (balance totalSupply riskThreshold : string) : Cmd Completion :=
  s ← get;
  (if sameChain s (Some chain)
      && bool_decide (Some contract = sm_address s) then
     setBalanceHandle (Some balance) ;;
     setTotalSupplyHandle (Some totalSupply) ;;
     setRiskThresholdHandle (Some riskThreshold)
   else mret ()) ;;
  setBusy Refreshing false ;;
  mret Returned.

(** The [.catch] handler of [refreshBalance]. *)
Definition refreshBalance_catch (e : string) : Cmd unit :=
  setMessage ("Failed to fetch balance: " +:+ e) ;;
  setBusy Refreshing false.

(** ** decryptBalance *)

(** The two's-complement fix-up of [decryptBalance] (the block commented
    "handle uint32 overflow").  [Number(decryptedValue)] is exact on every
    integer below 2^53 and monotone above, so the two comparisons have the
    outcome they have on the integer itself, and the subtraction only runs
    on values below 2^32. *)
Definition signedFixup (decryptedValue : Clear) : Clear :=
  match decryptedValue with
  | CBigInt numValue | CNumber numValue =>
      if (2147483647 <? numValue)%Z && (numValue <=? 4294967295)%Z then
        CBigInt (numValue - 4294967296)
      else decryptedValue
  | _ => decryptedValue
  end.

(** [res[handle]]. *)
Definition res_get (res : gmap string Clear) (h : string) : Clear :=
  default CUndefined (res !! h).

Definition decryptBalance : Cmd unit :=
  s ← get;
  let h := hook s in
  let p := params s in
  if flag Refreshing (busyRef h) || flag Decrypting (busyRef h)
     || negb (truthy (balanceHandle h)) then mret ()
  else if negb (truthy (sm_address s)) || negb (instance p)
          || negb (bool_decide (is_Some (ethersSigner p))) then mret ()
  else
    match balanceHandle h, sm_address s, ethersSigner p with
    | Some thisBalanceHandle, Some contract, Some signer =>
        if bool_decide (Some thisBalanceHandle = handle <$> clearBalanceRef h)
        then mret ()
        else if bool_decide (thisBalanceHandle = ZeroHash) then
          setClearBalance
            (Some {| handle := thisBalanceHandle; clear := CBigInt 0 |}) ;;
          setClearBalanceRef
            (Some {| handle := thisBalanceHandle; clear := CBigInt 0 |})
        else
          let cap := {| thisChainId := chainId p;
                        thisContractAddress := contract;
                        thisEthersSigner := signer |} in
          setBusy Decrypting true ;;
          setMessage "Start decrypting balance..." ;;
          launch (try_finally (suspend (BalanceSign cap thisBalanceHandle))
                    (setBusy Decrypting false))
    | _, _, _ => mret ()
    end.

(** After [await loadOrSign]. *)
Definition decryptBalance_signed (cap : Session) (thisBalanceHandle : string)
    (sig : option FhevmDecryptionSignature) : Cmd Completion :=
  match sig with
  | None =>
      setMessage "Unable to build FHEVM decryption signature" ;;
      mret Returned
  | Some sig =>
      s ← get;
      if isStale cap s then
        setMessage "Ignore FHEVM decryption" ;; mret Returned
      else
        setMessage "Calling FHEVM userDecrypt..." ;;
        suspend (BalanceDecrypt cap thisBalanceHandle sig)
  end.

(** After [await userDecrypt]. *)
Definition decryptBalance_decrypted (cap : Session)
    (thisBalanceHandle : string) (res : gmap string Clear) : Cmd Completion :=
  setMessage "FHEVM userDecrypt completed!" ;;
  s ← get;
  if isStale cap s then
    setMessage "Ignore FHEVM decryption" ;; mret Returned
  else
    let decryptedValue := signedFixup (res_get res thisBalanceHandle) in
    setClearBalance
      (Some {| handle := thisBalanceHandle; clear := decryptedValue |}) ;;
    setClearBalanceRef
      (Some {| handle := thisBalanceHandle; clear := decryptedValue |}) ;;
    setMessage ("Balance decrypted: " +:+ show_clear decryptedValue) ;;
    mret Returned.

(** ** decryptRiskThreshold *)

Definition decryptRiskThreshold_catch (e : string) : Cmd unit :=
  setMessage ("Decrypt risk threshold failed: " +:+ e).

Definition decryptRiskThreshold : Cmd unit :=
  s ← get;
  let h := hook s in
  let p := params s in
  if flag Refreshing (busyRef h) || flag Decrypting (busyRef h)
     || negb (truthy (riskThresholdHandle h)) then mret ()
  else if negb (truthy (sm_address s)) || negb (instance p)
          || negb (bool_decide (is_Some (ethersSigner p))) then mret ()
  else
    match sm_address s, ethersSigner p with
    | Some contract, Some signer =>
        let cap := {| thisChainId := chainId p;
                      thisContractAddress := contract;
                      thisEthersSigner := signer |} in
        setBusy Decrypting true ;;
        setMessage "Start authorizing and decrypting risk threshold..." ;;
        launch (try_catch_finally (suspend (ThresholdGrant cap))
                  decryptRiskThreshold_catch (setBusy Decrypting false))
    | _, _ => mret ()
    end.

(** After [await tx.wait()]. *)
Definition decryptRiskThreshold_granted (cap : Session) : Cmd Completion :=
  s ← get;
  if isStale cap s then
    setMessage "Ignore threshold decrypt" ;; mret Returned
  else suspend (ThresholdFetch cap).

(** After [await loadOrSign]. *)
Definition decryptRiskThreshold_signed (cap : Session) (h : string)
    (sig : option FhevmDecryptionSignature) : Cmd Completion :=
  match sig with
  | None =>
      setMessage "Unable to build FHEVM decryption signature for threshold" ;;
      mret Returned
  | Some sig =>
      s ← get;
      if isStale cap s then
        setMessage "Ignore threshold decrypt" ;; mret Returned
      else suspend (ThresholdDecrypt cap h sig)
  end.

(** After [await userDecrypt]. *)
Definition decryptRiskThreshold_decrypted (h : string)
    (res : gmap string Clear) : Cmd Completion :=
  setClearRiskThreshold (Some {| handle := h; clear := res_get res h |}) ;;
  setMessage "Risk threshold decrypted" ;;
  mret Returned.

(** ** issue, transfer, updateRiskThreshold *)

Definition mut_flag (op : MutOp) : Busy :=
  match op with
  | OpIssue => Issuing
  | OpTransfer => Transferring
  | OpUpdateRiskThreshold => UpdatingThreshold
  end.

(** The argument test of the second guard: [amount <= 0] in [issue] and
    [transfer], [newThreshold < 0] in [updateRiskThreshold]. *)
Definition mut_rejects (op : MutOp) (amount : number) : bool :=
  match op with
  | OpIssue | OpTransfer => num_le0 amount
  | OpUpdateRiskThreshold => num_lt0 amount
  end.

Definition msg_start (op : MutOp) (to : string) (amount : number) : string :=
  match op with
  | OpIssue =>
      "Issuing " +:+ show_number amount +:+ " tokens to " +:+ to +:+ "..."
  | OpTransfer =>
      "Transferring " +:+ show_number amount +:+ " tokens to " +:+ to +:+ "..."
  | OpUpdateRiskThreshold =>
      "Updating risk threshold to " +:+ show_number amount +:+ "..."
  end.

Definition msg_ignore (op : MutOp) : string :=
  match op with
  | OpIssue => "Ignore issue"
  | OpTransfer => "Ignore transfer"
  | OpUpdateRiskThreshold => "Ignore updateRiskThreshold"
  end.

Definition msg_calling (op : MutOp) : string :=
  match op with
  | OpIssue => "Calling issue..."
  | OpTransfer => "Calling transfer..."
  | OpUpdateRiskThreshold => "Calling updateRiskThreshold..."
  end.

(** The text of [receipt?.status] in a template. *)
Definition show_status (receipt : option Receipt) : string :=
  match receipt with
  | None => "undefined"
  | Some r => match status r with Some n => pretty n | None => "null" end
  end.

Definition msg_completed (op : MutOp) (receipt : option Receipt) : string :=
  match op with
  | OpIssue => "Issue completed status=" +:+ show_status receipt
  | OpTransfer => "Transfer completed status=" +:+ show_status receipt
  | OpUpdateRiskThreshold =>
      "Update threshold completed status=" +:+ show_status receipt
  end.

Definition msg_failed (op : MutOp) (e : string) : string :=
  match op with
  | OpIssue => "Issue failed: " +:+ e
  | OpTransfer => "Transfer failed: " +:+ e
  | OpUpdateRiskThreshold => "Update threshold failed: " +:+ e
  end.

Definition mutate_catch (op : MutOp) (e : string) : Cmd unit :=
  setMessage (msg_failed op e).

(** The synchronous part of a mutating operation, up to the timer. *)
Definition mutate (op : MutOp) (to : string) (amount : number) : Cmd unit :=
  s ← get;
  let h := hook s in
  let p := params s in
  if flag Refreshing (busyRef h) || flag (mut_flag op) (busyRef h) then mret ()
  else if negb (truthy (sm_address s)) || negb (instance p)
          || negb (bool_decide (is_Some (ethersSigner p)))
          || mut_rejects op amount then mret ()
  else
    match sm_address s, ethersSigner p with
    | Some contract, Some signer =>
        let a := {| mut_op := op; mut_to := to; mut_amount := amount;
                    mut_session := {| thisChainId := chainId p;
                                      thisContractAddress := contract;
                                      thisEthersSigner := signer |};
                    mut_userAddress := userAddress p;
                    mut_provider := ethersReadonlyProvider p |} in
        setBusy (mut_flag op) true ;;
        setMessage (msg_start op to amount) ;;
        launch (suspend (MutDelay a))
    | _, _ => mret ()
    end.

Definition issue (to : string) (amount : number) : Cmd unit :=
  mutate OpIssue to amount.
Definition transfer (to : string) (amount : number) : Cmd unit :=
  mutate OpTransfer to amount.
Definition updateRiskThreshold (newThreshold : number) : Cmd unit :=
  mutate OpUpdateRiskThreshold "" newThreshold.

(** After [await input.encrypt()]. *)
Definition mutate_encrypted (a : MutArgs) (encHandle inputProof : string)
    : Cmd Completion :=
  s ← get;
  if isStale (mut_session a) s then
    setMessage (msg_ignore (mut_op a)) ;; mret Returned
  else
    setMessage (msg_calling (mut_op a)) ;;
    suspend (MutSubmit a encHandle inputProof).

(** After [await contract.issue(...)]. *)
Definition mutate_sent (a : MutArgs) (hash : string) : Cmd Completion :=
  setMessage ("Waiting for tx:" +:+ hash +:+ "...") ;;
  suspend (MutConfirm a hash).

(** After [await tx.wait()]. *)
Definition mutate_confirmed (a : MutArgs) (receipt : option Receipt)
    : Cmd Completion :=
  setMessage (msg_completed (mut_op a) receipt) ;;
  s ← get;
  if isStale (mut_session a) s then
    setMessage (msg_ignore (mut_op a)) ;; mret Returned
  else
    refreshBalance (mut_userAddress a) (mut_provider a) ;;
    mret Returned.

(** ** checkRisk *)

(** The loop of [checkRisk] over [receipt.logs].  A log of another address
    is skipped; a log whose parse throws, or is not a [RiskCheck] event,
    is skipped; the second argument of the first [RiskCheck] event ends
    the loop.  When that argument is missing, [ethers.hexlify(undefined)]
    throws inside the inner [try] and the log is skipped. *)
Fixpoint findRiskHandle (contract : string) (ls : list Log) : option string :=
  match ls with
  | [] => None
  | log :: rest =>
      if negb (bool_decide
                 (toLowerCase <$> log_address log = Some (toLowerCase contract)))
      then findRiskHandle contract rest
      else
        match log_parsed log with
        | Parsed name args =>
            if bool_decide (name = "RiskCheck") then
              match args !! 1%nat with
              | Some h => Some h
              | None => findRiskHandle contract rest
              end
            else findRiskHandle contract rest
        | _ => findRiskHandle contract rest
        end
  end.

Definition checkRisk_catch (e : string) : Cmd unit :=
  setMessage ("Risk check failed: " +:+ e).

Definition checkRisk (user : string) : Cmd unit :=
  s ← get;
  let h := hook s in
  let p := params s in
  if flag CheckingRisk (busyRef h) then mret ()
  else if negb (truthy (sm_address s)) || negb (instance p)
          || negb (bool_decide (is_Some (ethersSigner p))) then mret ()
  else
    match sm_address s, ethersSigner p with
    | Some contract, Some signer =>
        let cap := {| thisChainId := chainId p;
                      thisContractAddress := contract;
                      thisEthersSigner := signer |} in
        setBusy CheckingRisk true ;;
        setMessage ("Checking risk for " +:+ user +:+ "...") ;;
        launch (try_catch_finally (suspend (RiskSubmit cap user))
                  checkRisk_catch (setBusy CheckingRisk false))
    | _, _ => mret ()
    end.

(** After [await tx.wait()]. *)
Definition checkRisk_confirmed (cap : Session) (receipt : option Receipt)
    : Cmd Completion :=
  s ← get;
  if isStale cap s then
    setMessage "Ignore risk check" ;; mret Returned
  else
    match receipt with
    | None => setMessage "Transaction receipt is null" ;; mret Returned
    | Some receipt =>
        let riskHandle := findRiskHandle (thisContractAddress cap) (logs receipt) in
        match riskHandle with
        | Some h =>
            if truthy riskHandle then
              setRiskFlagHandle (Some h) ;;
              suspend (RiskSign cap h)
            else
              setMessage "Risk check transaction succeeded but event not found" ;;
              mret Returned
        | None =>
            setMessage "Risk check transaction succeeded but event not found" ;;
            mret Returned
        end
    end.

(** After [await loadOrSign]: [if (sig) { ... }] has no [else]. *)
Definition checkRisk_signed (cap : Session) (riskHandle : string)
    (sig : option FhevmDecryptionSignature) : Cmd Completion :=
  match sig with
  | Some sig => suspend (RiskDecrypt cap riskHandle sig)
  | None => mret Returned
  end.

(** After [await userDecrypt]. *)
Definition checkRisk_decrypted (riskHandle : string) (res : gmap string Clear)
    : Cmd Completion :=
  setClearRiskFlag
    (Some {| handle := riskHandle; clear := res_get res riskHandle |}) ;;
  setMessage ("Risk check completed: " +:+
              (if clear_truthy (res_get res riskHandle)
               then "RISK DETECTED" else "SAFE")) ;;
  mret Returned.

(** ** Resuming a suspended run *)

(** The code between the [await] where [t] is suspended and the next
    [await] or the end of the body, on the reply [r].  A reply of the wrong
    kind for the awaited call is not an event of the task ([None]); the
    timer of [MutDelay] cannot reject. *)
Definition continue (t : Task) (r : Reply) : option (Cmd Completion) :=
  match t, r with
  | MutDelay a, Fired => Some (suspend (MutEncrypt a))
  | MutDelay _, _ => None
  | _, Rejected e => Some (mret (Thrown e))
  | RefreshFetch chain contract _, Handles balance totalSupply riskThreshold =>
      Some (refreshBalance_then chain contract balance totalSupply riskThreshold)
  | BalanceSign cap h, Signature sig => Some (decryptBalance_signed cap h sig)
  | BalanceDecrypt cap h _, Decrypted res =>
      Some (decryptBalance_decrypted cap h res)
  | ThresholdGrant cap, Sent hash => Some (suspend (ThresholdGrantWait cap hash))
  | ThresholdGrantWait cap _, Mined _ => Some (decryptRiskThreshold_granted cap)
  | ThresholdFetch cap, Fetched h => Some (suspend (ThresholdSign cap h))
  | ThresholdSign cap h, Signature sig =>
      Some (decryptRiskThreshold_signed cap h sig)
  | ThresholdDecrypt _ h _, Decrypted res =>
      Some (decryptRiskThreshold_decrypted h res)
  | MutEncrypt a, Encrypted encHandle inputProof =>
      Some (mutate_encrypted a encHandle inputProof)
  | MutSubmit a _ _, Sent hash => Some (mutate_sent a hash)
  | MutConfirm a _, Mined receipt => Some (mutate_confirmed a receipt)
  | RiskSubmit cap _, Sent hash => Some (suspend (RiskConfirm cap hash))
  | RiskConfirm cap _, Mined receipt => Some (checkRisk_confirmed cap receipt)
  | RiskSign cap h, Signature sig => Some (checkRisk_signed cap h sig)
  | RiskDecrypt _ h _, Decrypted res => Some (checkRisk_decrypted h res)
  | _, _ => None
  end.

(** The [try] statement (or promise chain) a resumed body runs in.  The
    timer of a mutating operation is awaited just before its [try]; what
    follows the timer is that [try]. *)
Definition enclosing (t : Task) (body : Cmd Completion) : Cmd Completion :=
  match t with
  | RefreshFetch _ _ _ => then_catch body refreshBalance_catch
  | BalanceSign _ _ | BalanceDecrypt _ _ _ =>
      try_finally body (setBusy Decrypting false)
  | ThresholdGrant _ | ThresholdGrantWait _ _ | ThresholdFetch _
  | ThresholdSign _ _ | ThresholdDecrypt _ _ _ =>
      try_catch_finally body decryptRiskThreshold_catch
        (setBusy Decrypting false)
  | MutDelay a | MutEncrypt a | MutSubmit a _ _ | MutConfirm a _ =>
      try_catch_finally body (mutate_catch (mut_op a))
        (setBusy (mut_flag (mut_op a)) false)
  | RiskSubmit _ _ | RiskConfirm _ _ | RiskSign _ _ | RiskDecrypt _ _ _ =>
      try_catch_finally body checkRisk_catch (setBusy CheckingRisk false)
  end.

(** The busy flag of the operation a task belongs to. *)
Definition flag_of (t : Task) : Busy :=
  match t with
  | RefreshFetch _ _ _ => Refreshing
  | BalanceSign _ _ | BalanceDecrypt _ _ _ => Decrypting
  | ThresholdGrant _ | ThresholdGrantWait _ _ | ThresholdFetch _
  | ThresholdSign _ _ | ThresholdDecrypt _ _ _ => Decrypting
  | MutDelay a | MutEncrypt a | MutSubmit a _ _ | MutConfirm a _ =>
      mut_flag (mut_op a)
  | RiskSubmit _ _ | RiskConfirm _ _ | RiskSign _ _ | RiskDecrypt _ _ _ =>
      CheckingRisk
  end.

(** One stretch of a run: from the reply to the next [await] ([Some t'])
    or to the end of the run ([None]). *)
Definition resume (t : Task) (r : Reply) : option (Cmd (option Task)) :=
  body ← continue t r;
  Some (settle_async (enclosing t body)).

(** One stretch of task [t] on reply [r] in state [s]: the next suspension
    (or [None] when the run has ended), the state after it, its output. *)
Definition resumed (t : Task) (r : Reply) (s : Sys)
    : option (option Task * Sys * list Obs) :=
  c ← resume t r; Some (c s).

(** ** The hook in its environment *)

(** The [useMemo] that computes [stableMonitor] when [chainId] changes. *)
Definition useMemo_stableMonitor : Cmd unit :=
  s ← get;
  let c := getStableMonitorByChainId (StableMonitorAddresses s)
             (chainId (params s)) in
  setStableMonitorRef (Some c) ;;
  match info_chainId c with
  | Some n =>
      if negb (truthy (info_address c)) then
        setMessage ("StableMonitor deployment not found for chainId="
                    +:+ pretty n +:+ ".")
      else setMessage ""
  | None => setMessage ""
  end.

(** A render with new parameters: the memo is recomputed when [chainId]
    has changed, and the effect calls the new [refreshBalance] when one of
    its dependencies has changed.  (The effect that fetches the issuer
    address touches no cell the operations read and is left out.) *)
Definition render (p : Params) : Cmd unit :=
  s ← get;
  modify (with_params p) ;;
  (if bool_decide (chainId p = chainId (params s)) then mret ()
   else useMemo_stableMonitor) ;;
  (if bool_decide (ethersReadonlyProvider p = ethersReadonlyProvider (params s))
      && bool_decide (userAddress p = userAddress (params s))
   then mret ()
   else refreshBalance (userAddress p) (ethersReadonlyProvider p)).

(** The operations the hook returns, called with the closures of the last
    render. *)
Inductive Operation :=
| DoRefreshBalance
| DoDecryptBalance
| DoDecryptRiskThreshold
| DoIssue (to : string) (amount : number)
| DoTransfer (to : string) (amount : number)
| DoCheckRisk (user : string)
| DoUpdateRiskThreshold (newThreshold : number).

Definition invoke (o : Operation) : Cmd unit :=
  match o with
  | DoRefreshBalance =>
      s ← get;
      refreshBalance (userAddress (params s))
        (ethersReadonlyProvider (params s))
  | DoDecryptBalance => decryptBalance
  | DoDecryptRiskThreshold => decryptRiskThreshold
  | DoIssue to amount => issue to amount
  | DoTransfer to amount => transfer to amount
  | DoCheckRisk user => checkRisk user
  | DoUpdateRiskThreshold n => updateRiskThreshold n
  end.

(** The events of the environment: the wallet switches account or network
    (and the hook renders), the user invokes an operation, the call
    awaited by run [i] settles. *)
Inductive Event :=
| Switch (p : Params)
| Invoke (o : Operation)
| Settle (i : nat) (r : Reply).

Definition exec (c : Cmd unit) (s : Sys) : Sys * list Obs :=
  let '(_, s', o) := c s in (s', o).

(** The call awaited by run [i] settles with [r]: the run goes on to its
    next [await] and stays in the pool, or ends and leaves it. *)
Definition settle (i : nat) (r : Reply) (s : Sys) : option (Sys * list Obs) :=
  t ← pool s !! i;
  '(next, s', o) ← resumed t r s;
  Some (match next with
        | Some t' => with_pool (<[i := t']> (pool s')) s'
        | None => with_pool (delete i (pool s')) s'
        end, o).

(** The transition function; [None] when the event is not enabled. *)
Definition step (ev : Event) (s : Sys) : option (Sys * list Obs) :=
  match ev with
  | Switch p => Some (exec (render p) s)
  | Invoke o => Some (exec (invoke o) s)
  | Settle i r => settle i r s
  end.

Fixpoint run (evs : list Event) (s : Sys) : option (Sys * list Obs) :=
  match evs with
  | [] => Some (s, [])
  | ev :: rest =>
      '(s1, o1) ← step ev s;
      '(s2, o2) ← run rest s1;
      Some (s2, o1 ++ o2)
  end.

(** The hook after its first render with every parameter undefined. *)
Definition no_params : Params :=
  {| instance := false; chainId := None; ethersSigner := None;
     ethersReadonlyProvider := None; userAddress := None |}.

Definition init (table : gmap Z Entry) : Sys :=
  {| params := no_params;
     StableMonitorAddresses := table;
     hook := {| balanceHandle := None; clearBalance := None;
                totalSupplyHandle := None; riskThresholdHandle := None;
                clearRiskThreshold := None; riskFlagHandle := None;
                clearRiskFlag := None; clearBalanceRef := None;
                busy := idle; busyRef := idle; message := "";
                stableMonitorRef :=
                  Some (getStableMonitorByChainId table None) |};
     pool := ∅;
     nextId := 0 |}.

(** The states the hook can be in. *)
Inductive Reachable (table : gmap Z Entry) : Sys -> Prop :=
| reach_init : Reachable table (init table)
| reach_step s ev s' o :
    Reachable table s -> step ev s = Some (s', o) -> Reachable table s'.

(** ** What the hook returns and what the wallet view shows *)

(** [isBalanceDecrypted], as a truth value. *)
Definition isBalanceDecrypted (h : Hook) : bool :=
  truthy (balanceHandle h)
  && bool_decide (balanceHandle h = handle <$> clearBalance h).

(** The field [clear: clearBalance?.clear] of the returned object. *)
Definition returned_clear (h : Hook) : Clear :=
  match clearBalance h with
  | Some c => clear c
  | None => CUndefined
  end.

Definition quote : string := String "034"%char EmptyString.

(** The value of the row "Decrypted Balance" in [renderWalletView]. *)
Definition decryptedBalanceRow (h : Hook) : string :=
  match returned_clear h with
  | CUndefined => "Click " +:+ quote +:+ "Decrypt" +:+ quote +:+ " to view"
  | c => show_clear c +:+ " tokens"
  end.

(** ** Runs of one task *)

(** A whole run of one task.  The script gives, for every reply, the state
    of the hook at the moment the reply arrives; these states are
    arbitrary, so whatever the wallet, the user and the other runs did in
    between is covered.  The result is the suspension reached ([None]: the
    run has ended) and the output of the run. *)
Fixpoint drive (t : Task) (script : list (Sys * Reply))
    : option (option Task * list Obs) :=
  match script with
  | [] => Some (Some t, [])
  | (s, r) :: rest =>
      '(next, _, o) ← resumed t r s;
      match next with
      | None => match rest with [] => Some (None, o) | _ => None end
      | Some t' => '(fin, o') ← drive t' rest; Some (fin, o ++ o')
      end
  end.

(** The number of [await]s a run suspended at [t] can still go through. *)
Definition remaining (t : Task) : nat :=
  match t with
  | RefreshFetch _ _ _ => 1
  | BalanceSign _ _ => 2
  | BalanceDecrypt _ _ _ => 1
  | ThresholdGrant _ => 5
  | ThresholdGrantWait _ _ => 4
  | ThresholdFetch _ => 3
  | ThresholdSign _ _ => 2
  | ThresholdDecrypt _ _ _ => 1
  | MutDelay _ => 4
  | MutEncrypt _ => 3
  | MutSubmit _ _ _ => 2
  | MutConfirm _ _ => 1
  | RiskSubmit _ _ => 4
  | RiskConfirm _ _ => 3
  | RiskSign _ _ => 2
  | RiskDecrypt _ _ _ => 1
  end.

(** The arguments of the mutating operation a task belongs to. *)
Definition mut_args (t : Task) : option MutArgs :=
  match t with
  | MutDelay a | MutEncrypt a | MutSubmit a _ _ | MutConfirm a _ => Some a
  | _ => None
  end.

(** The session a task has captured; a refresh captures a chain and a
    contract address instead. *)
Definition task_session (t : Task) : option Session :=
  match t with
  | RefreshFetch _ _ _ => None
  | BalanceSign cap _ | BalanceDecrypt cap _ _
  | ThresholdGrant cap | ThresholdGrantWait cap _ | ThresholdFetch cap
  | ThresholdSign cap _ | ThresholdDecrypt cap _ _
  | RiskSubmit cap _ | RiskConfirm cap _ | RiskSign cap _
  | RiskDecrypt cap _ _ => Some cap
  | MutDelay a | MutEncrypt a | MutSubmit a _ _ | MutConfirm a _ =>
      Some (mut_session a)
  end.

(** The tasks of [decryptBalance], whose [try] has no [catch]. *)
Definition is_decryptBalance (t : Task) : bool :=
  match t with
  | BalanceSign _ _ | BalanceDecrypt _ _ _ => true
  | _ => false
  end.

Definition is_checkRisk (t : Task) : bool :=
  match t with
  | RiskSubmit _ _ | RiskConfirm _ _ | RiskSign _ _ | RiskDecrypt _ _ _ => true
  | _ => false
  end.

(** ** Reading an output *)

Definition is_refresh (o : Obs) : bool :=
  match o with RefreshInvoked => true | _ => false end.
Definition is_call (o : Obs) : bool :=
  match o with Called _ => true | _ => false end.
Definition is_unhandled (o : Obs) : bool :=
  match o with Unhandled _ => true | _ => false end.

Fixpoint count (p : Obs -> bool) (o : list Obs) : nat :=
  match o with
  | [] => 0
  | x :: rest => (if p x then 1 else 0) + count p rest
  end.

(** The messages of an output, oldest first. *)
Fixpoint messages (o : list Obs) : list string :=
  match o with
  | [] => []
  | Message m :: rest => m :: messages rest
  | _ :: rest => messages rest
  end.

(** The messages that end a risk check: the two verdicts and the four
    terminal errors. *)
Definition is_verdict (m : string) : Prop :=
  m = "Risk check completed: RISK DETECTED" ∨ m = "Risk check completed: SAFE".

Definition is_risk_error (m : string) : Prop :=
  m = "Ignore risk check" ∨ m = "Transaction receipt is null"
  ∨ m = "Risk check transaction succeeded but event not found"
  ∨ ∃ e, m = "Risk check failed: " +:+ e.

(** ** Sessions and guards, as the statements name them *)

(** The session has changed with respect to the captured one: another
    signer, another chain, or another contract address. *)
Definition session_changed (cap : Session) (s : Sys) : Prop :=
  ethersSigner (params s) ≠ Some (thisEthersSigner cap)
  ∨ chainId (params s) ≠ thisChainId cap
  ∨ sm_address s ≠ Some (thisContractAddress cap).

(** The session a task checks its result against when it is resumed, as
    far as the check decides what is stored: the chain and the contract
    address for a refresh; signer, chain and contract address for the
    decryption of the balance and for the mutating operations at their
    two checks. *)
Definition stale_for (t : Task) (s : Sys) : Prop :=
  match t with
  | RefreshFetch chain contract _ =>
      chainId (params s) ≠ Some chain ∨ sm_address s ≠ Some contract
  | BalanceSign cap _ | BalanceDecrypt cap _ _ => session_changed cap s
  | MutEncrypt a | MutConfirm a _ => session_changed (mut_session a) s
  | _ => False
  end.

(** The run of a mutating operation ended with the confirmation of its
    transaction, in a session that was not stale at that moment. *)
Definition confirmed_fresh (a : MutArgs) (script : list (Sys * Reply)) : bool :=
  match last script with
  | Some (s, Mined _) => negb (isStale (mut_session a) s)
  | _ => false
  end.

(** The view calls of [refreshBalance] in an output, oldest first. *)
Fixpoint view_calls (o : list Obs) : list ExtCall :=
  match o with
  | [] => []
  | Called (CallGetBalance contract user) :: rest =>
      CallGetBalance contract user :: view_calls rest
  | Called (CallGetTotalSupply contract) :: rest =>
      CallGetTotalSupply contract :: view_calls rest
  | Called (CallGetRiskThreshold contract) :: rest =>
      CallGetRiskThreshold contract :: view_calls rest
  | _ :: rest => view_calls rest
  end.

(** The guards of [refreshBalance] are open for the closure that the
    mutating operation with arguments [a] calls: no refresh is in flight,
    the closure has a user address and a provider, and the deployment entry
    has a chain id and an address. *)
Definition refresh_open (a : MutArgs) (s : Sys) : bool :=
  negb (flag Refreshing (busyRef (hook s)))
  && truthy (mut_userAddress a)
  && truthyZ (sm_chainId s) && truthy (sm_address s)
  && bool_decide (is_Some (mut_provider a)).

(** The view calls a run with arguments [a] makes when the confirmation of
    its transaction arrives in state [s]. *)
Definition refresh_calls (a : MutArgs) (s : Sys) : list ExtCall :=
  if negb (isStale (mut_session a) s) && refresh_open a s then
    match mut_userAddress a with
    | Some user =>
        let contract := thisContractAddress (mut_session a) in
        [CallGetBalance contract user; CallGetTotalSupply contract;
         CallGetRiskThreshold contract]
    | None => []
    end
  else [].

(** The view calls of a whole run: those at its confirmation, when the run
    ends with one. *)
Definition fetched (a : MutArgs) (script : list (Sys * Reply)) : list ExtCall :=
  match last script with
  | Some (s, Mined _) => refresh_calls a s
  | _ => []
  end.

(** The guards of a mutating operation other than the test of its
    argument. *)
Definition mut_ready (op : MutOp) (s : Sys) : bool :=
  negb (flag Refreshing (busyRef (hook s)))
  && negb (flag (mut_flag op) (busyRef (hook s)))
  && truthy (sm_address s) && instance (params s)
  && bool_decide (is_Some (ethersSigner (params s))).

(** The guards of [decryptBalance] that come before the test for the zero
    handle. *)
Definition decrypt_ready (s : Sys) : bool :=
  negb (flag Refreshing (busyRef (hook s)))
  && negb (flag Decrypting (busyRef (hook s)))
  && truthy (sm_address s) && instance (params s)
  && bool_decide (is_Some (ethersSigner (params s)))
  && negb (bool_decide (balanceHandle (hook s)
                        = handle <$> clearBalanceRef (hook s))).

(** ** Footprints and the invariant of the pool *)

(** From [s] to [s'] no flag and no run has changed. *)
Definition unchanged (s s' : Sys) : Prop :=
  pool s' = pool s ∧ nextId s' = nextId s ∧
  busyRef (hook s') = busyRef (hook s) ∧ busy (hook s') = busy (hook s).

(** From [s] to [s'] the run [t] has been started, under a flag that was
    clear. *)
Definition started (t : Task) (s s' : Sys) : Prop :=
  pool s' = <[nextId s := t]> (pool s) ∧ nextId s' = S (nextId s) ∧
  flag (flag_of t) (busyRef (hook s)) = false ∧
  busyRef (hook s') = set_flag (flag_of t) true (busyRef (hook s)) ∧
  busy (hook s') = set_flag (flag_of t) true (busy (hook s)).

Definition starts (s s' : Sys) : Prop :=
  StableMonitorAddresses s' = StableMonitorAddresses s ∧
  (unchanged s s' ∨ ∃ t, started t s s').

(** From [s] to [s'] the run [t] has ended: its flag is cleared; on the way
    it may have started a refresh. *)
Definition ended (t : Task) (s s' : Sys) : Prop :=
  (pool s' = pool s ∧ nextId s' = nextId s ∧
   busyRef (hook s') = set_flag (flag_of t) false (busyRef (hook s)) ∧
   busy (hook s') = set_flag (flag_of t) false (busy (hook s)))
  ∨ (∃ rt, pool s' = <[nextId s := rt]> (pool s) ∧ nextId s' = S (nextId s) ∧
       flag_of rt = Refreshing ∧ flag_of t ≠ Refreshing ∧
       flag Refreshing (busyRef (hook s)) = false ∧
       busyRef (hook s') =
         set_flag (flag_of t) false (set_flag Refreshing true (busyRef (hook s))) ∧
       busy (hook s') =
         set_flag (flag_of t) false (set_flag Refreshing true (busy (hook s)))).

(** What one stretch of a run does to the flags and the pool. *)
Definition stretch (t : Task) (next : option Task) (s s' : Sys) : Prop :=
  StableMonitorAddresses s' = StableMonitorAddresses s ∧
  params s' = params s ∧
  match next with
  | Some t' => flag_of t' = flag_of t ∧ unchanged s s'
  | None => ended t s s'
  end.

(** The invariant that ties the busy flags to the runs in flight: a state
    cell and its reference cell agree; the flag of every run in flight is
    set; no two runs in flight share a flag; a set flag has its run; the
    identifiers in use are below [nextId]. *)
Record InvOn (b bref : Flags) (p : gmap nat Task) (n : nat) : Prop := {
  inv_busy : b = bref;
  inv_flag : ∀ i t, p !! i = Some t → flag (flag_of t) bref = true;
  inv_uniq : ∀ i j t t',
    p !! i = Some t → p !! j = Some t' → flag_of t = flag_of t' → i = j;
  inv_fresh : ∀ i t, p !! i = Some t → i < n;
  inv_live : ∀ k, flag k bref = true → ∃ i t, p !! i = Some t ∧ flag_of t = k
}.

Definition Inv (s : Sys) : Prop :=
  InvOn (busy (hook s)) (busyRef (hook s)) (pool s) (nextId s).

(** Statements about the result of a command, and of one stretch of a
    run, in a form that computes. *)
Definition on_cmd {A} (c : Cmd A) (s : Sys)
    (P : A → Sys → list Obs → Prop) : Prop :=
  let '(a, s', o) := c s in P a s' o.

Definition on_resumed (t : Task) (r : Reply) (s : Sys)
    (P : option Task → Sys → list Obs → Prop) : Prop :=
  match resumed t r s with
  | Some (next, s', o) => P next s' o
  | None => True
  end.

(** ** Tactics for unfolding commands *)

Ltac cmd_unfold :=
  cbv [resumed resume continue enclosing
       refreshBalance decryptBalance decryptRiskThreshold mutate issue transfer
       updateRiskThreshold checkRisk launch suspend settle_async try_finally
       try_catch_finally then_catch setBusy setMessage setBalanceHandle
       setTotalSupplyHandle setRiskThresholdHandle setRiskFlagHandle
       setClearBalance setClearBalanceRef setClearRiskThreshold setClearRiskFlag
       setStableMonitorRef emit_calls emit modify get mbind mret Cmd_bind Cmd_ret
       option_bind
       refreshBalance_then refreshBalance_catch decryptBalance_signed
       decryptBalance_decrypted decryptRiskThreshold_catch
       decryptRiskThreshold_granted decryptRiskThreshold_signed
       decryptRiskThreshold_decrypted mutate_catch mutate_encrypted mutate_sent
       mutate_confirmed checkRisk_catch checkRisk_confirmed checkRisk_signed
       checkRisk_decrypted useMemo_stableMonitor render invoke exec
       on_cmd on_resumed] in *.

Ltac split_bools :=
  repeat match goal with
    | H : _ || _ = false |- _ => apply orb_false_iff in H as [? ?]
    | H : _ && _ = true |- _ => apply andb_true_iff in H as [? ?]
    | H : negb _ = false |- _ => apply negb_false_iff in H
    | H : negb _ = true |- _ => apply negb_true_iff in H
    end.

(** Branch on the innermost conditions of an unfolded command. *)
Ltac cmd_branch :=
  match goal with
  | |- context [if ?b then _ else _] =>
      lazymatch b with
      | context [if _ then _ else _] => fail
      | _ => destruct b eqn:?
      end
  | |- context [match ?x with Some _ => _ | None => _ end] =>
      lazymatch x with
      | context [if _ then _ else _] => fail
      | _ => destruct x eqn:?
      end
  end; cbv beta iota zeta.

(** Use the boolean facts in the context against each other. *)
Ltac bool_contra :=
  split_bools;
  repeat match goal with
    | H : ?x = true, H' : context [?x] |- _ => rewrite H in H'
    | H : ?x = false, H' : context [?x] |- _ => rewrite H in H'
    | H : ?x = Some _, H' : context [?x] |- _ => rewrite H in H'
    | H : ?x = None, H' : context [?x] |- _ => rewrite H in H'
    end;
  simpl in *; try congruence; try done.

Ltac cmd_cases := cmd_unfold; cbv beta iota zeta; repeat cmd_branch; simpl in *.

(** Case analysis of a goal about [resumed t r s], for a given task and
    reply. *)
Ltac resumed_cases :=
  cbv [resumed resume continue option_bind mbind]; try exact I; cmd_cases.

(** ** A deployment, two accounts and some histories *)

Module Demo.

Definition table : gmap Z Entry :=
  {[ 31337%Z := {| entry_address := "0xC0"; entry_chainId := 31337;
                   entry_chainName := "localhost" |} ]}.

Definition alice : Params :=
  {| instance := true; chainId := Some 31337%Z; ethersSigner := Some "0xA1";
     ethersReadonlyProvider := Some "rpc"; userAddress := Some "0xA1" |}.

Definition bob : Params :=
  {| instance := true; chainId := Some 31337%Z; ethersSigner := Some "0xB0";
     ethersReadonlyProvider := Some "rpc"; userAddress := Some "0xB0" |}.

Definition alice_session : Session :=
  {| thisChainId := Some 31337%Z; thisContractAddress := "0xC0";
     thisEthersSigner := "0xA1" |}.

Definition alice_sig : FhevmDecryptionSignature :=
  {| privateKey := "sk"; publicKey := "pk"; signature := "sig";
     contractAddresses := ["0xC0"]; sig_userAddress := "0xA1";
     startTimestamp := 1700000000; durationDays := 365 |}.

(** The state and the output at the end of a list of events, from the
    first render. *)
Definition state_after (evs : list Event) : Sys :=
  match run evs (init table) with
  | Some (s, _) => s
  | None => init table
  end.

Definition output_after (evs : list Event) : list Obs :=
  match run evs (init table) with
  | Some (_, o) => o
  | None => []
  end.

(** Alice is connected and the first refresh has brought her handles. *)
Definition alice_loaded (balance : string) : list Event :=
  [Switch alice; Settle 0 (Handles balance "0xT1" "0xR1")].

(** Alice has asked for her balance, the signature is there, the
    decryption is on its way; then the wallet switches to Bob. *)
Definition alice_decrypting_then_bob : list Event :=
  alice_loaded "0xH1"
  ++ [Invoke DoDecryptBalance; Settle 1 (Signature (Some alice_sig));
      Switch bob].

Definition receipt_ok : Receipt := {| status := Some 1%Z; logs := [] |}.

(** The arguments of a transfer of 50 tokens from Alice to Bob. *)
Definition alice_transfer : MutArgs :=
  {| mut_op := OpTransfer; mut_to := "0xB0"; mut_amount := Num 50;
     mut_session := alice_session; mut_userAddress := Some "0xA1";
     mut_provider := Some "rpc" |}.

(** The replies of a transfer that goes through, each arriving while
    Alice's session is the current one. *)
Definition transfer_script : list (Sys * Reply) :=
  let s := state_after (alice_loaded "0xH1") in
  [(s, Fired); (s, Encrypted "0xE1" "0xP1"); (s, Sent "0xTX");
   (s, Mined (Some receipt_ok))].


(** Alice's transfer has been sent and waits for its confirmation; she
    then presses Refresh, and that refresh is in flight. *)
Definition transfer_during_refresh : list Event :=
  alice_loaded "0xH1"
  ++ [Invoke (DoTransfer "0xB0" (Num 50)); Settle 1 Fired;
      Settle 1 (Encrypted "0xE1" "0xP1"); Settle 1 (Sent "0xTX");
      Invoke DoRefreshBalance].

(** A receipt that carries the [RiskCheck] event of the contract. *)
Definition risk_receipt : Receipt :=
  {| status := Some 1%Z;
     logs := [ {| log_address := Some "0xc0";
                  log_parsed := Parsed "RiskCheck" ["0xA1"; "0xF1"] |} ] |}.

(** Alice checks her own risk; the transaction is mined and carries the
    event; [loadOrSign] then yields no signature ([null]). *)
Definition risk_check_without_signature : list Event :=
  alice_loaded "0xH1"
  ++ [Invoke (DoCheckRisk "0xA1"); Settle 1 (Sent "0xTX");
      Settle 1 (Mined (Some risk_receipt)); Settle 1 (Signature None)].

(** Alice decrypts her balance; [userDecrypt] is rejected. *)
Definition decrypt_rejected : list Event :=
  alice_loaded "0xH1"
  ++ [Invoke DoDecryptBalance; Settle 1 (Signature (Some alice_sig));
      Settle 1 (Rejected "network down")].

(** Alice decrypts her balance (5 tokens under handle 0xH1), transfers 2
    tokens to Bob, and the refresh after the transfer brings the new
    balance handle 0xH2. *)
Definition decrypt_then_transfer : list Event :=
  alice_loaded "0xH1"
  ++ [Invoke DoDecryptBalance; Settle 1 (Signature (Some alice_sig));
      Settle 1 (Decrypted {[ "0xH1" := CBigInt 5 ]});
      Invoke (DoTransfer "0xB0" (Num 2)); Settle 2 Fired;
      Settle 2 (Encrypted "0xE1" "0xP1"); Settle 2 (Sent "0xTX");
      Settle 2 (Mined (Some receipt_ok));
      Settle 3 (Handles "0xH2" "0xT1" "0xR1")].

End Demo.

(** ** Further values the hook returns *)


(** [isIssuer], from the parameter [userAddress] and the state cell
    [issuerAddress]. *)
Definition isIssuer (userAddress issuerAddress : option string) : bool :=
  if negb (truthy userAddress) || negb (truthy issuerAddress) then false
  else bool_decide (toLowerCase <$> userAddress = toLowerCase <$> issuerAddress).

(** [canGetBalance], [canDecrypt], [canIssue], [canTransfer] and
    [canUpdateThreshold], as truth values.  They read the state cells of
    the flags and of the clear balance. *)
Definition canGetBalance (s : Sys) : bool :=
  truthy (sm_address s)
  && bool_decide (is_Some (ethersReadonlyProvider (params s)))
  && negb (flag Refreshing (busy (hook s)))
  && truthy (userAddress (params s)).

Definition canDecrypt (s : Sys) : bool :=
  truthy (sm_address s) && instance (params s)
  && bool_decide (is_Some (ethersSigner (params s)))
  && negb (flag Refreshing (busy (hook s)))
  && negb (flag Decrypting (busy (hook s)))
  && truthy (balanceHandle (hook s))
  && negb (bool_decide (balanceHandle (hook s) = Some ZeroHash))
  && negb (bool_decide
             (balanceHandle (hook s) = handle <$> clearBalance (hook s))).

(** [canIssue], [canTransfer], [canUpdateThreshold]: one expression with
    the flag of the operation. *)
Definition canMutate (op : MutOp) (s : Sys) : bool :=
  truthy (sm_address s) && instance (params s)
  && bool_decide (is_Some (ethersSigner (params s)))
  && negb (flag Refreshing (busy (hook s)))
  && negb (flag (mut_flag op) (busy (hook s))).

Definition canIssue : Sys → bool := canMutate OpIssue.
Definition canTransfer : Sys → bool := canMutate OpTransfer.
Definition canUpdateThreshold : Sys → bool := canMutate OpUpdateRiskThreshold.

(** ** Further invariants of the reachable states *)

(** A clear value that the fix-up of [decryptBalance] leaves alone: not a
    numeric value in the upper half of the unsigned 32-bit range. *)
Definition upper_free (c : Clear) : Prop :=
  match c with
  | CBigInt n | CNumber n => ¬ (2147483647 < n ∧ n <= 4294967295)%Z
  | _ => True
  end.

Definition cached_ok (c : option ClearValueType) : Prop :=
  match c with
  | None => True
  | Some v => (handle v = ZeroHash → clear v = CBigInt 0) ∧ upper_free (clear v)
  end.

(** What holds of a run in flight: a decryption of the balance is never
    for the zero handle; a risk check past its confirmation works on the
    handle shown in [riskFlagHandle]. *)
Definition task_ok (t : Task) (h : Hook) : Prop :=
  match t with
  | BalanceSign _ bh | BalanceDecrypt _ bh _ => bh ≠ ZeroHash
  | RiskSign _ rh | RiskDecrypt _ rh _ => riskFlagHandle h = Some rh
  | _ => True
  end.

Record Coherent (s : Sys) : Prop := {
  coh_ref : clearBalance (hook s) = clearBalanceRef (hook s);
  coh_cached : cached_ok (clearBalance (hook s));
  coh_tasks : ∀ i t, pool s !! i = Some t → task_ok t (hook s);
  coh_memo :
    stableMonitorRef (hook s)
    = Some (getStableMonitorByChainId (StableMonitorAddresses s)
              (chainId (params s)))
}.

(** What a command leaves of the cells [Coherent] speaks about. *)
Definition keeps_cells (s s' : Sys) : Prop :=
  StableMonitorAddresses s' = StableMonitorAddresses s
  ∧ riskFlagHandle (hook s') = riskFlagHandle (hook s)
  ∧ (clearBalance (hook s) = clearBalanceRef (hook s) →
     cached_ok (clearBalance (hook s)) →
     clearBalance (hook s') = clearBalanceRef (hook s')
     ∧ cached_ok (clearBalance (hook s'))).

(** A log from which [checkRisk] takes the handle [h]: it comes from the
    contract (addresses compared in lower case), it parses as a
    [RiskCheck] event, and [h] is its second argument. *)
Definition qualifies (contract : string) (log : Log) (h : string) : Prop :=
  toLowerCase <$> log_address log = Some (toLowerCase contract)
  ∧ ∃ args, log_parsed log = Parsed "RiskCheck" args ∧ args !! 1%nat = Some h.

(** The condition under which [refreshBalance] starts a fetch. *)
Definition refresh_ready (s : Sys) : bool :=
  canGetBalance s && truthyZ (sm_chainId s).

(** Wallet parameters on a chain the table has no deployment for. *)
Definition carol_elsewhere : Params :=
  {| instance := true; chainId := Some 1%Z; ethersSigner := Some "0xCA";
     ethersReadonlyProvider := Some "rpc1"; userAddress := Some "0xCA" |}.

(** The badge under the risk form in [renderMonitoringView]: hidden while
    [clearRiskFlag] is undefined, else "RISK DETECTED" ([true]) or "SAFE"
    ([false]) by the truthiness of the flag. *)
Definition riskBadge (h : Hook) : option bool :=
  match clearRiskFlag h with
  | None => None
  | Some c =>
      match clear c with
      | CUndefined => None
      | v => Some (clear_truthy v)
      end
  end.

(** Alice checks her own risk and the check goes through: the flag
    decrypts to [true]. *)
Definition risk_check_to_decryption : list Event :=
  Demo.alice_loaded "0xH1"
  ++ [Invoke (DoCheckRisk "0xA1"); Settle 1 (Sent "0xTX");
      Settle 1 (Mined (Some Demo.risk_receipt));
      Settle 1 (Signature (Some Demo.alice_sig))].

(** Alice has asked for the risk threshold, the grant is mined, the handle
    fetched and the signature loaded is next; then the wallet switches to
    Bob. *)
Definition threshold_then_bob : list Event :=
  Demo.alice_loaded "0xH1"
  ++ [Invoke DoDecryptRiskThreshold; Settle 1 (Sent "0xTX");
      Settle 1 (Mined (Some Demo.receipt_ok)); Settle 1 (Fetched "0xR2");
      Switch Demo.bob].

(** * The script that generates the ABI and the address table

    The script reads the directory [deployments] of the back end and
    writes the two generated files the hook imports.  The file system is
    its input: what [readdirSync] lists, in that order, and for every
    listed name what [statSync], [existsSync], [readFileSync] and
    [JSON.parse] yield.  Its output is the lines it prints, by kind, and
    either an exit code or the content of the two files.  (The script
    first creates the output directory when it is missing; nothing it does
    afterwards depends on that.) *)

Module GenAbi.

(** [wellKnownChainIds]. *)
Definition wellKnownChainIds : gmap string Z :=
  list_to_map
    [("localhost", 31337%Z); ("hardhat", 31337%Z); ("anvil", 31337%Z);
     ("sepolia", 11155111%Z); ("homestead", 1%Z); ("mainnet", 1%Z);
     ("polygon", 137%Z); ("mumbai", 80001%Z); ("base", 8453%Z);
     ("optimism", 10%Z); ("arbitrum", 42161%Z)].

(** What the script reads of a parsed deployment file: [chainId] when it
    is a number (an integer here), [address] when it is a string, and
    [abi] when present (an array, which is truthy), as the text
    [JSON.stringify] makes of it, which is all the script does with an
    ABI. *)
Record DeploymentFile := {
  file_chainId : option Z;
  file_address : option string;
  file_abi : option string
}.

(** [JSON.parse] of a deployment file: it throws; it yields [null], on
    which reading a property throws; or it yields a value. *)
Inductive Json :=
| JsonThrows
| JsonNull
| JsonValue (f : DeploymentFile).

(** An entry of [readdirSync(deploymentsDir)].  [dir_chainIdFile] is
    [None] when there is no file [.chainId], else what [Number.parseInt]
    makes of its trimmed content; [dir_deployment] is [None] when there is
    no [StableMonitor.json]. *)
Record ChainDir := {
  dir_name : string;
  dir_isDirectory : bool;
  dir_chainIdFile : option number;
  dir_deployment : option Json
}.

Record Deployment := {
  dep_chainId : Z;
  dep_chainName : string;
  dep_address : string;
  dep_abi : string
}.

(** The lines the script prints, by kind. *)
Inductive Line :=
| DeploymentsDirNotFound
| SkipNoDeploymentFile (chainName : string)
| SkipNoChainId (chainName : string)
| SkipInvalid (chainName : string)
| SkipParseFailed (chainName : string)
| DifferentABIs
| NoDeployments
| GeneratedABI
| GeneratedAddresses
| AddressesForChains (chains : list (string * Z)).

(** How the script ends. *)
Inductive Outcome :=
| Exit (code : Z)
| Written (abi : string) (addresses : gmap Z Entry).

Definition detectChainId (chainIdFile : option number) (chainName : string)
    (parsedDeployment : Json) : option Z :=
  let fromDeployment :=
    match parsedDeployment with
    | JsonValue f =>
        match file_chainId f with
        | Some c => Some c
        | None => wellKnownChainIds !! chainName
        end
    | _ => wellKnownChainIds !! chainName
    end in
  match chainIdFile with
  | Some (Num n) => if (0 <? n)%Z then Some n else fromDeployment
  | _ => fromDeployment
  end.

(** The body of the loop of [collectDeployments] for one directory: a
    deployment to push, or the line printed before [continue]. *)
Definition visit (d : ChainDir) : Deployment + Line :=
  let chainName := dir_name d in
  match dir_deployment d with
  | None => inr (SkipNoDeploymentFile chainName)
  | Some JsonThrows => inr (SkipParseFailed chainName)
  | Some parsed =>
      match detectChainId (dir_chainIdFile d) chainName parsed with
      | None => inr (SkipNoChainId chainName)
      | Some chainId =>
          match parsed with
          | JsonValue f =>
              match file_address f, file_abi f with
              | Some address, Some abi =>
                  if truthy (Some address) then
                    inl {| dep_chainId := chainId; dep_chainName := chainName;
                           dep_address := address; dep_abi := abi |}
                  else inr (SkipInvalid chainName)
              | _, _ => inr (SkipInvalid chainName)
              end
          | _ => inr (SkipParseFailed chainName)
          end
      end
  end.

(** [collectDeployments]: [None] stands for a missing [deployments]
    directory. *)
Fixpoint collect (dirs : list ChainDir) : list Deployment * list Line :=
  match dirs with
  | [] => ([], [])
  | d :: rest =>
      let '(ds, ls) := collect rest in
      if dir_isDirectory d then
        match visit d with
        | inl dep => (dep :: ds, ls)
        | inr l => (ds, l :: ls)
        end
      else (ds, ls)
  end.

Definition collectDeployments (deploymentsDir : option (list ChainDir))
    : list Deployment * list Line :=
  match deploymentsDir with
  | None => ([], [DeploymentsDirNotFound])
  | Some dirs => collect dirs
  end.

(** The loop that compares every ABI with the first. *)
Definition abis_differ (ds : list Deployment) : bool :=
  match ds with
  | [] => false
  | first :: rest =>
      existsb (λ d, negb (bool_decide (dep_abi d = dep_abi first))) rest
  end.

(** [addressesObj]: [forEach] assigns the entries in order, so a later
    deployment replaces an earlier one with the same chain id. *)
Definition entry_of (d : Deployment) : Entry :=
  {| entry_address := dep_address d; entry_chainId := dep_chainId d;
     entry_chainName := dep_chainName d |}.

Definition addressesObj (ds : list Deployment) : gmap Z Entry :=
  foldl (λ obj d, <[dep_chainId d := entry_of d]> obj) ∅ ds.

(** The script from [collectDeployments()] to the two [writeFileSync]. *)
Definition main (deploymentsDir : option (list ChainDir))
    : Outcome * list Line :=
  let '(deployments, ls) := collectDeployments deploymentsDir in
  if abis_differ deployments then (Exit 1, ls ++ [DifferentABIs])
  else
    match deployments with
    | [] => (Exit 0, ls ++ [NoDeployments])
    | first :: _ =>
        (Written (dep_abi first) (addressesObj deployments),
         ls ++ [GeneratedABI; GeneratedAddresses;
                AddressesForChains
                  ((λ d, (dep_chainName d, dep_chainId d)) <$> deployments)])
    end.

(** The last deployment of a list with chain id [c]. *)
Definition last_for (c : Z) (ds : list Deployment) : option Deployment :=
  last (filter (λ d, dep_chainId d = c) ds).

End GenAbi.

(** A [deployments] directory: [hardhat], whose chain id comes from the
    well-known names; [localhost], with a [.chainId] file; [sepolia], not
    deployed; and a plain file. *)
Definition hardhat_dir : GenAbi.ChainDir :=
  {| GenAbi.dir_name := "hardhat"; GenAbi.dir_isDirectory := true;
     GenAbi.dir_chainIdFile := None;
     GenAbi.dir_deployment :=
       Some (GenAbi.JsonValue
               {| GenAbi.file_chainId := None;
                  GenAbi.file_address := Some "0xA";
                  GenAbi.file_abi := Some "[]" |}) |}.

Definition listing : list GenAbi.ChainDir :=
  [ hardhat_dir;
    {| GenAbi.dir_name := "localhost"; GenAbi.dir_isDirectory := true;
       GenAbi.dir_chainIdFile := Some (Num 31337);
       GenAbi.dir_deployment :=
         Some (GenAbi.JsonValue
                 {| GenAbi.file_chainId := None;
                    GenAbi.file_address := Some "0xB";
                    GenAbi.file_abi := Some "[]" |}) |};
    {| GenAbi.dir_name := "sepolia"; GenAbi.dir_isDirectory := true;
       GenAbi.dir_chainIdFile := None; GenAbi.dir_deployment := None |};
    {| GenAbi.dir_name := "README.md"; GenAbi.dir_isDirectory := false;
       GenAbi.dir_chainIdFile := None; GenAbi.dir_deployment := None |} ].

(** Two directories of one local chain, [hardhat] listed before
    [localhost], as [collectDeployments] collects them. *)
Definition local_twice : list GenAbi.Deployment :=
  [ {| GenAbi.dep_chainId := 31337; GenAbi.dep_chainName := "hardhat";
       GenAbi.dep_address := "0xA"; GenAbi.dep_abi := "[]" |};
    {| GenAbi.dep_chainId := 31337; GenAbi.dep_chainName := "localhost";
       GenAbi.dep_address := "0xB"; GenAbi.dep_abi := "[]" |} ].

(** * The contract

    [StableMonitor.sol].  The contract computes on ciphertexts through the
    FHE library, which is not part of the repository: the library is the
    interface [Library], and the contract is embedded over any
    implementation of it.  A ciphertext stands for the value it encrypts;
    the access-control grants ([FHE.allow], [FHE.allowThis]), which are
    about ciphertext handles and change nothing the contract stores, are
    left out.  A storage slot that was never written holds an
    uninitialised ciphertext ([None]), which the library's operations read
    as [FHE.asEuint32(0)].  A call that reverts returns [None]. *)

Module Contract.

Definition address := N.
Definition bytes := list Byte.byte.

Class Library := {
  euint32 : Type;
  ebool : Type;
  externalEuint32 : Type;
  asEuint32 : Z → euint32;
  (** [None]: the proof does not verify and the call reverts. *)
  fromExternal : externalEuint32 → bytes → option euint32;
  add : euint32 → euint32 → euint32;
  sub : euint32 → euint32 → euint32;
  le : euint32 → euint32 → ebool;
  gt : euint32 → euint32 → ebool
}.

(** The laws of arithmetic modulo [2^32] that the supply invariant rests
    on. *)
Class Arithmetic (L : Library) : Prop := {
  add_comm : ∀ a b : euint32, add a b = add b a;
  add_assoc : ∀ a b c : euint32, add a (add b c) = add (add a b) c;
  add_zero : ∀ a : euint32, add a (asEuint32 0) = a;
  add_sub : ∀ a b : euint32, sub (add a b) b = a;
  sub_add : ∀ a b : euint32, add (sub a b) b = a
}.

Section Contract.
Context {L : Library}.

Record State := {
  _balances : gmap address euint32;
  _totalSupply : option euint32;
  _issuer : address;
  _riskThreshold : euint32
}.

Inductive Event :=
| Issuance (user : address) (handle : euint32)
| Transfer (from to : address) (handle : euint32)
| RiskCheck (user : address) (riskFlagHandle : ebool).

Inductive Returned :=
| Nothing
| Euint32 (v : option euint32)
| Ebool (v : ebool)
| Address (a : address).

(** The value an operation of the library reads from a slot. *)
Definition value (slot : option euint32) : euint32 :=
  default (asEuint32 0) slot.

Definition with_balance (user : address) (v : euint32) (st : State) : State :=
  {| _balances := <[user := v]> (_balances st);
     _totalSupply := _totalSupply st;
     _issuer := _issuer st;
     _riskThreshold := _riskThreshold st |}.

Definition with_totalSupply (v : euint32) (st : State) : State :=
  {| _balances := _balances st;
     _totalSupply := Some v;
     _issuer := _issuer st;
     _riskThreshold := _riskThreshold st |}.

Definition with_riskThreshold (v : euint32) (st : State) : State :=
  {| _balances := _balances st;
     _totalSupply := _totalSupply st;
     _issuer := _issuer st;
     _riskThreshold := v |}.

Definition constructor (chainid : Z) (issuer : address)
    (initialRiskThreshold : externalEuint32)
    (initialRiskThresholdProof : bytes) : option State :=
  threshold ←
    (if bool_decide (chainid = 31337%Z) then Some (asEuint32 0)
     else if bool_decide (chainid = 11155111%Z)
             && bool_decide (length initialRiskThresholdProof = 0)
          then Some (asEuint32 0)
          else fromExternal initialRiskThreshold initialRiskThresholdProof);
  Some {| _balances := ∅;
          _totalSupply := None;
          _issuer := issuer;
          _riskThreshold := threshold |}.

Definition issue (sender user : address) (amount : externalEuint32)
    (amountProof : bytes) (st : State) : option (State * Returned * list Event) :=
  if negb (bool_decide (sender = _issuer st)) then None
  else if negb (bool_decide (user ≠ 0%N)) then None
  else
    encryptedAmount ← fromExternal amount amountProof;
    let st := with_balance user
                (add (value (_balances st !! user)) encryptedAmount) st in
    let st := with_totalSupply
                (add (value (_totalSupply st)) encryptedAmount) st in
    Some (st, Nothing, [Issuance user (value (_balances st !! user))]).

Definition transfer (sender to : address) (amount : externalEuint32)
    (amountProof : bytes) (st : State) : option (State * Returned * list Event) :=
  if negb (bool_decide (to ≠ 0%N)) then None
  else if negb (bool_decide (to ≠ sender)) then None
  else
    encryptedAmount ← fromExternal amount amountProof;
    let st := with_balance sender
                (sub (value (_balances st !! sender)) encryptedAmount) st in
    let st := with_balance to
                (add (value (_balances st !! to)) encryptedAmount) st in
    Some (st, Nothing, [Transfer sender to encryptedAmount]).

Definition hasSufficientBalance (user : address) (amount : externalEuint32)
    (amountProof : bytes) (st : State) : option (State * Returned * list Event) :=
  encryptedAmount ← fromExternal amount amountProof;
  Some (st, Ebool (le encryptedAmount (value (_balances st !! user))), []).

Definition getBalance (user : address) (st : State) : Returned :=
  Euint32 (_balances st !! user).

Definition getTotalSupply (st : State) : Returned :=
  Euint32 (_totalSupply st).

Definition getRiskThreshold (st : State) : Returned :=
  Euint32 (Some (_riskThreshold st)).

Definition getRiskThresholdForCaller (st : State) : Returned :=
  Euint32 (Some (_riskThreshold st)).

Definition checkRisk (user : address) (st : State) : Returned :=
  Ebool (gt (value (_balances st !! user)) (_riskThreshold st)).

Definition checkTotalSupplyRisk (st : State) : Returned :=
  Ebool (gt (value (_totalSupply st)) (_riskThreshold st)).

Definition performRiskCheck (user : address) (st : State) : list Event :=
  [RiskCheck user (gt (value (_balances st !! user)) (_riskThreshold st))].

Definition updateRiskThreshold (sender : address)
    (newThreshold : externalEuint32) (newThresholdProof : bytes) (st : State)
    : option (State * Returned * list Event) :=
  if negb (bool_decide (sender = _issuer st)) then None
  else
    threshold ← fromExternal newThreshold newThresholdProof;
    Some (with_riskThreshold threshold st, Nothing, []).

Definition getIssuer (st : State) : Returned := Address (_issuer st).

(** A call of one of the contract's external functions. *)
Inductive Call :=
| Issue (user : address) (amount : externalEuint32) (amountProof : bytes)
| DoTransfer (to : address) (amount : externalEuint32) (amountProof : bytes)
| HasSufficientBalance (user : address) (amount : externalEuint32)
    (amountProof : bytes)
| GetBalance (user : address)
| GetTotalSupply
| GetRiskThreshold
| GetRiskThresholdForCaller
| CheckRisk (user : address)
| CheckTotalSupplyRisk
| PerformRiskCheck (user : address)
| UpdateRiskThreshold (newThreshold : externalEuint32)
    (newThresholdProof : bytes)
| GetIssuer.

(** The call [c] by [sender] in state [st]: the state after it, what it
    returns and the events it emits, or [None] when it reverts. *)
Definition call (sender : address) (c : Call) (st : State)
    : option (State * Returned * list Event) :=
  match c with
  | Issue user amount amountProof => issue sender user amount amountProof st
  | DoTransfer to amount amountProof => transfer sender to amount amountProof st
  | HasSufficientBalance user amount amountProof =>
      hasSufficientBalance user amount amountProof st
  | GetBalance user => Some (st, getBalance user st, [])
  | GetTotalSupply => Some (st, getTotalSupply st, [])
  | GetRiskThreshold => Some (st, getRiskThreshold st, [])
  | GetRiskThresholdForCaller => Some (st, getRiskThresholdForCaller st, [])
  | CheckRisk user => Some (st, checkRisk user st, [])
  | CheckTotalSupplyRisk => Some (st, checkTotalSupplyRisk st, [])
  | PerformRiskCheck user => Some (st, Nothing, performRiskCheck user st)
  | UpdateRiskThreshold newThreshold newThresholdProof =>
      updateRiskThreshold sender newThreshold newThresholdProof st
  | GetIssuer => Some (st, getIssuer st, [])
  end.

(** The states of a deployed contract: that of the constructor, and those
    after any call that does not revert. *)
Inductive Live : State → Prop :=
| Live_deployed chainid issuer initialRiskThreshold initialRiskThresholdProof st :
    constructor chainid issuer initialRiskThreshold initialRiskThresholdProof
    = Some st →
    Live st
| Live_call st sender c st' r events :
    Live st →
    call sender c st = Some (st', r, events) →
    Live st'.

(** The sum of all balances. *)
Definition sum_of_balances (st : State) : euint32 :=
  map_fold (λ _ v acc, add v acc) (asEuint32 0) (_balances st).

End Contract.

(** The library on clear values: a [euint32] is an integer modulo [2^32],
    an input comes with the value it encrypts, and its proof verifies when
    it is not empty. *)
Definition clear32 : Library := {|
  euint32 := Zmod (2 ^ 32);
  ebool := bool;
  externalEuint32 := Z;
  asEuint32 := Zmod.of_Z (2 ^ 32);
  fromExternal v proof :=
    if bool_decide (length proof = 0) then None
    else Some (Zmod.of_Z (2 ^ 32) v);
  add := Zmod.add;
  sub := Zmod.sub;
  le a b := (Zmod.to_Z a <=? Zmod.to_Z b)%Z;
  gt a b := (Zmod.to_Z b <? Zmod.to_Z a)%Z
|}.

End Contract.

(** The state after a sequence of transactions, each a call with its
    sender; a transaction that reverts leaves the state as it was. *)
Definition transactions `{L : Contract.Library}
    (txs : list (Contract.address * Contract.Call)) (st : Contract.State)
    : Contract.State :=
  foldl (λ st tx,
           match Contract.call tx.1 tx.2 st with
           | Some (st', _, _) => st'
           | None => st
           end) st txs.

(** A contract deployed on the local chain with account 1 as issuer, over
    the library on clear values; account 1 issues 10 to account 2, account
    2 sends 4 to account 3, and account 3, holding 4, sends 7 back. *)
Definition deployed_locally : @Contract.State Contract.clear32 :=
  {| Contract._balances := ∅;
     Contract._totalSupply := None;
     Contract._issuer := 1%N;
     Contract._riskThreshold := @Contract.asEuint32 Contract.clear32 0 |}.

Definition overdrawn : @Contract.State Contract.clear32 :=
  transactions (L := Contract.clear32)
    [(1%N, @Contract.Issue Contract.clear32 2%N 10%Z [Byte.x01]);
     (2%N, @Contract.DoTransfer Contract.clear32 3%N 4%Z [Byte.x01]);
     (3%N, @Contract.DoTransfer Contract.clear32 2%N 7%Z [Byte.x01])]
    deployed_locally.

(** * Properties *)

Import Demo.

(** ** Flags and staleness *)

Lemma flag_set_same k b f : flag k (set_flag k b f) = b.
Proof. by destruct k. Qed.

Lemma flag_set_other k k' b f : k ≠ k' → flag k (set_flag k' b f) = flag k f.
Proof. by destruct k, k'. Qed.

Lemma flag_set k k' b f :
  flag k (set_flag k' b f) = if decide (k = k') then b else flag k f.
Proof.
  case_decide as E; [subst; apply flag_set_same | by apply flag_set_other].
Qed.

Lemma isStale_true cap s : isStale cap s = true ↔ session_changed cap s.
Proof.
  unfold isStale, session_changed, sameChain, sameSigner.
  rewrite !orb_true_iff, !negb_true_iff, !bool_decide_eq_false.
  intuition congruence.
Qed.

Lemma isStale_false cap s :
  isStale cap s = false ↔
  ethersSigner (params s) = Some (thisEthersSigner cap)
  ∧ chainId (params s) = thisChainId cap
  ∧ sm_address s = Some (thisContractAddress cap).
Proof.
  unfold isStale, sameChain, sameSigner.
  rewrite !orb_false_iff, !negb_false_iff, !bool_decide_eq_true.
  intuition congruence.
Qed.

(** ** Footprints of the commands *)

Lemma on_cmd_elim {A} (c : Cmd A) s P a s' o :
  on_cmd c s P → c s = (a, s', o) → P a s' o.
Proof. unfold on_cmd. intros H E. by rewrite E in H. Qed.

Lemma on_resumed_elim t r s P next s' o :
  on_resumed t r s P → resumed t r s = Some (next, s', o) → P next s' o.
Proof. unfold on_resumed. intros H E. by rewrite E in H. Qed.

Lemma starts_refl s : starts s s.
Proof. split; [done | left; done]. Qed.

Local Ltac solve_starts :=
  first
    [ split; [done | left; done]
    | split; [done | right; eexists; split; [reflexivity | simpl];
                     split_bools; split_and!; auto ] ].

Lemma refreshBalance_starts u p s :
  on_cmd (refreshBalance u p) s (λ _ s' _, starts s s').
Proof. cmd_cases; solve_starts. Qed.

Lemma invoke_starts op s : on_cmd (invoke op) s (λ _ s' _, starts s s').
Proof. destruct op; cmd_cases; solve_starts. Qed.

Lemma render_starts p s : on_cmd (render p) s (λ _ s' _, starts s s').
Proof. cmd_cases; solve_starts. Qed.

Local Ltac solve_ended :=
  first
    [ left; split_and!; reflexivity
    | right; eexists; split; [reflexivity | simpl];
      split_bools; split_and!; auto; by destruct (mut_op _) ].

Lemma resumed_stretch t r s :
  on_resumed t r s (λ next s' _, stretch t next s s').
Proof.
  unfold stretch.
  destruct t, r; resumed_cases;
    (split; [done | split; [done |]]);
    first [ by (split; [done | repeat split]) | solve_ended ].
Qed.

(** ** The invariant of the pool *)

Section PoolInvariant.

Context (b br : Flags) (p : gmap nat Task) (n : nat).
Hypothesis HI : InvOn b br p n.

(** Starting a run under a clear flag. *)
Lemma InvOn_start t :
  flag (flag_of t) br = false →
  InvOn (set_flag (flag_of t) true b) (set_flag (flag_of t) true br)
    (<[n := t]> p) (S n).
Proof.
  destruct HI as [Hb Hf Hu Hn Hl]. intros Hk. split.
  - by rewrite Hb.
  - intros i t0 [[-> ->] | [Hi Ht0]]%lookup_insert_Some.
    + apply flag_set_same.
    + rewrite flag_set. case_decide; [done | eauto].
  - intros i j t1 t2 [[-> ->] | [Hi H1]]%lookup_insert_Some
      [[<- <-] | [Hj H2]]%lookup_insert_Some E; try done.
    + apply Hf in H2. congruence.
    + apply Hf in H1. congruence.
    + eauto.
  - intros i t0 [[<- _] | [_ H0]]%lookup_insert_Some; [lia |].
    apply Hn in H0. lia.
  - intros k. rewrite flag_set. case_decide as E.
    + intros _. exists n, t. by rewrite lookup_insert_eq.
    + intros (i & t0 & H0 & E0)%Hl. exists i, t0. split; [| done].
      rewrite lookup_insert_ne; [done |]. apply Hn in H0. lia.
Qed.

(** A run in flight goes on to its next await. *)
Lemma InvOn_continue i t t' :
  p !! i = Some t → flag_of t' = flag_of t → InvOn b br (<[i := t']> p) n.
Proof.
  destruct HI as [Hb Hf Hu Hn Hl]. intros Hi E. split.
  - done.
  - intros j t0 [[<- <-] | [Hj H0]]%lookup_insert_Some; [| eauto].
    rewrite E. eauto.
  - intros j1 j2 t1 t2 [[<- <-] | [Hj1 H1]]%lookup_insert_Some
      [[<- <-] | [Hj2 H2]]%lookup_insert_Some E'; try done.
    + rewrite E in E'. eauto.
    + rewrite E in E'. eauto.
    + eauto.
  - intros j t0 [[<- _] | [_ H0]]%lookup_insert_Some; eauto.
  - intros k (j & t0 & H0 & E0)%Hl.
    destruct (decide (i = j)) as [<- | Hne].
    + exists i, t'. rewrite lookup_insert_eq. split; [done |]. congruence.
    + exists j, t0. by rewrite lookup_insert_ne.
Qed.

(** A run in flight ends and its flag is cleared. *)
Lemma InvOn_end i t :
  p !! i = Some t →
  InvOn (set_flag (flag_of t) false b) (set_flag (flag_of t) false br)
    (delete i p) n.
Proof.
  destruct HI as [Hb Hf Hu Hn Hl]. intros Hi. split.
  - by rewrite Hb.
  - intros j t0 [Hj H0]%lookup_delete_Some.
    rewrite flag_set. case_decide as E; [| eauto].
    exfalso. apply Hj. eauto.
  - intros j1 j2 t1 t2 [_ H1]%lookup_delete_Some [_ H2]%lookup_delete_Some.
    eauto.
  - intros j t0 [_ H0]%lookup_delete_Some. eauto.
  - intros k. rewrite flag_set. case_decide as E; [done |].
    intros (j & t0 & H0 & E0)%Hl. exists j, t0. split; [| done].
    rewrite lookup_delete_ne; [done |]. intros <-. congruence.
Qed.

End PoolInvariant.

Lemma Inv_starts s s' : Inv s → starts s s' → Inv s'.
Proof.
  unfold Inv. intros HI [_ [(-> & -> & -> & ->) | [t (-> & -> & Hk & -> & ->)]]].
  - done.
  - by apply InvOn_start.
Qed.

Lemma Inv_init table : Inv (init table).
Proof.
  split; simpl; try done.
  intros k. by destruct k.
Qed.

Lemma Inv_settle i r s s' o : Inv s → settle i r s = Some (s', o) → Inv s'.
Proof.
  unfold settle. intros HI H.
  destruct (pool s !! i) as [t |] eqn:Hi; [| done]. simpl in H.
  pose proof (resumed_stretch t r s) as S. unfold on_resumed in S.
  destruct (resumed t r s) as [[[next s1] o1] |]; [| done]. simpl in H.
  simplify_eq.
  destruct S as (_ & _ & S). unfold Inv in *.
  destruct next as [t' |]; simpl.
  - destruct S as (E & -> & -> & -> & ->). by eapply InvOn_continue.
  - destruct S as [(-> & -> & -> & ->)
                  | [rt (-> & -> & Ert & Hne & Hk & -> & ->)]].
    + by apply InvOn_end.
    + apply InvOn_end.
      * rewrite <- Ert. apply InvOn_start; [done | by rewrite Ert].
      * rewrite lookup_insert_ne; [done |].
        apply (inv_fresh _ _ _ _ HI) in Hi. lia.
Qed.

Lemma Inv_step ev s s' o : Inv s → step ev s = Some (s', o) → Inv s'.
Proof.
  intros HI H. destruct ev as [p | op | i r]; simpl in H.
  - pose proof (render_starts p s) as S. unfold on_cmd, exec in *.
    destruct (render p s) as [[u s1] o1]. simplify_eq. by eapply Inv_starts.
  - pose proof (invoke_starts op s) as S. unfold on_cmd, exec in *.
    destruct (invoke op s) as [[u s1] o1]. simplify_eq. by eapply Inv_starts.
  - by eapply Inv_settle.
Qed.

Lemma Reachable_Inv table s : Reachable table s → Inv s.
Proof.
  induction 1 as [| s ev s' o _ IH H]; [apply Inv_init | by eapply Inv_step].
Qed.

Lemma isStale_ext cap s s' :
  params s' = params s →
  stableMonitorRef (hook s') = stableMonitorRef (hook s) →
  isStale cap s' = isStale cap s.
Proof.
  unfold isStale, sameChain, sameSigner, sm_address. by intros -> ->.
Qed.

(** ** Arguments of the mutating operations *)

(** C10.  An amount that is zero or negative makes [issue] and [transfer]
    return at once: no flag is set, no cell changes, no call leaves.
    [updateRiskThreshold] does the same for a negative threshold, and
    takes the threshold zero: with its other guards open it sets its busy
    flag and starts its run. *)
Theorem C10_nonpositive_amount_returns (s : Sys) (to : string) (z : Z)
    (Hz : (z <= 0)%Z) :
  issue to (Num z) s = ((), s, [])
  ∧ transfer to (Num z) s = ((), s, [])
  ∧ ((z < 0)%Z → updateRiskThreshold (Num z) s = ((), s, []))
  ∧ (mut_ready OpUpdateRiskThreshold s = true →
     on_cmd (updateRiskThreshold (Num 0)) s (λ _ s' o,
       flag UpdatingThreshold (busyRef (hook s')) = true
       ∧ flag UpdatingThreshold (busy (hook s')) = true
       ∧ (∃ a, pool s' !! nextId s = Some (MutDelay a)
               ∧ mut_amount a = Num 0)
       ∧ o = [Message "Updating risk threshold to 0...";
              Called (CallSetTimeout 100)])).
Proof.
  assert (L : (z <=? 0)%Z = true) by lia.
  split_and!.
  - cmd_unfold. cbv beta iota zeta. simpl. rewrite L, !orb_true_r.
    by destruct (_ || _).
  - cmd_unfold. cbv beta iota zeta. simpl. rewrite L, !orb_true_r.
    by destruct (_ || _).
  - intros Hneg. assert (L' : (z <? 0)%Z = true) by lia.
    cmd_unfold. cbv beta iota zeta. simpl. rewrite L', !orb_true_r.
    by destruct (_ || _).
  - unfold mut_ready. intros R. split_bools. simpl in *.
    cmd_cases; try (exfalso; bool_contra; fail).
    split_and!; try done.
    eexists. by rewrite lookup_insert_eq.
Qed.

(** At a state where [updateRiskThreshold] is ready, for the amount -3. *)
Lemma C10_witness :
  (-3 <= 0)%Z
  ∧ issue "0xB0" (Num (-3)) (state_after (alice_loaded "0xH1"))
    = ((), state_after (alice_loaded "0xH1"), []).
Proof.
  split; [lia |].
  apply (C10_nonpositive_amount_returns _ "0xB0" (-3)). lia.
Defined.

(** ** decryptBalance *)

(** C7.  When the decryption of the balance comes back in the session it
    was started in with a numeric value [v] (a bigint or a number), the
    clear balance stored, in the state cell and in the reference cell, is
    [v - 2^32] when [2^31 - 1 < v <= 2^32 - 1], and [v] as it was
    returned when [v <= 2^31 - 1]. *)
Theorem C7_twos_complement_fixup (cap : Session) (h : string)
    (sig : FhevmDecryptionSignature) (res : gmap string Clear) (s : Sys)
    (v : Z)
    (Hnum : res_get res h = CBigInt v ∨ res_get res h = CNumber v)
    (Hfresh : isStale cap s = false) :
  ∃ s' o stored,
    resumed (BalanceDecrypt cap h sig) (Decrypted res) s = Some (None, s', o)
    ∧ clearBalance (hook s') = Some {| handle := h; clear := stored |}
    ∧ clearBalanceRef (hook s') = Some {| handle := h; clear := stored |}
    ∧ ((2147483647 < v ∧ v <= 4294967295)%Z →
       stored = CBigInt (v - 4294967296))
    ∧ ((v <= 2147483647)%Z → stored = res_get res h).
Proof.
  pose proof (isStale_ext cap s
                (with_hook (with_message "FHEVM userDecrypt completed!") s)
                eq_refl eq_refl) as E.
  rewrite Hfresh in E.
  cbv [resumed resume continue option_bind mbind]. cmd_unfold.
  cbv beta iota zeta. rewrite E. cbv beta iota zeta. simpl.
  do 3 eexists. split_and!; try reflexivity.
  - intros [H1 H2]. unfold signedFixup.
    destruct Hnum as [-> | ->];
      (replace (2147483647 <? v)%Z with true by lia);
      (replace (v <=? 4294967295)%Z with true by lia); done.
  - intros H1. unfold signedFixup.
    destruct Hnum as [-> | ->];
      (replace (2147483647 <? v)%Z with false by lia); done.
Qed.

(** The value 4294967291 is stored as -5. *)
Lemma C7_witness :
  ∃ s' o stored,
    resumed (BalanceDecrypt alice_session "0xH1" alice_sig)
      (Decrypted {[ "0xH1" := CBigInt 4294967291 ]})
      (state_after (alice_loaded "0xH1")) = Some (None, s', o)
    ∧ clearBalance (hook s') = Some {| handle := "0xH1"; clear := stored |}
    ∧ clearBalanceRef (hook s') = Some {| handle := "0xH1"; clear := stored |}
    ∧ ((2147483647 < 4294967291 ∧ 4294967291 <= 4294967295)%Z →
       stored = CBigInt (4294967291 - 4294967296))
    ∧ ((4294967291 <= 2147483647)%Z →
       stored = res_get {[ "0xH1" := CBigInt 4294967291 ]} "0xH1").
Proof.
  apply (C7_twos_complement_fixup alice_session "0xH1" alice_sig
           {[ "0xH1" := CBigInt 4294967291 ]}
           (state_after (alice_loaded "0xH1")) 4294967291).
  - left. reflexivity.
  - vm_compute. reflexivity.
Defined.

(** C5, as stated, at a state the hook reaches: Alice's balance handle is
    the zero handle and a second refresh is in flight.  [decryptBalance]
    returns at its first guard and the clear balance stays undefined. *)
Lemma C5_counterexample :
  let s := state_after (alice_loaded ZeroHash ++ [Invoke DoRefreshBalance]) in
  balanceHandle (hook s) = Some ZeroHash
  ∧ ∃ s', decryptBalance s = ((), s', [])
          ∧ clearBalance (hook s') = None.
Proof. vm_compute. split; [reflexivity |]. eexists. split; reflexivity. Qed.

(** C5, amended.  With the zero handle as balance handle,
    [decryptBalance] never starts a run and no call leaves the hook; and
    when its entry guards are open (no refresh and no decryption in
    flight, contract address, FHE instance and signer present, handle not
    the cached one) it stores the clear balance 0 for that handle, in the
    state cell and in the reference cell. *)
Theorem C5_zero_handle_short_circuit (s : Sys)
    (Hzero : balanceHandle (hook s) = Some ZeroHash) :
  ∃ s', decryptBalance s = ((), s', [])
        ∧ pool s' = pool s ∧ nextId s' = nextId s
        ∧ busyRef (hook s') = busyRef (hook s)
        ∧ (decrypt_ready s = true →
           clearBalance (hook s')
             = Some {| handle := ZeroHash; clear := CBigInt 0 |}
           ∧ clearBalanceRef (hook s')
             = Some {| handle := ZeroHash; clear := CBigInt 0 |}).
Proof.
  unfold decrypt_ready. cmd_unfold. cbv beta iota zeta. rewrite Hzero.
  repeat cmd_branch; simpl in *; simplify_eq;
    try (eexists; split_and!; try reflexivity;
         intros R; exfalso; bool_contra; fail).
  eexists; split_and!; try reflexivity. done.
Qed.

(** At the state where Alice's zero handle has just been fetched. *)
Lemma C5_witness :
  ∃ s', decryptBalance (state_after (alice_loaded ZeroHash)) = ((), s', [])
        ∧ clearBalance (hook s')
          = Some {| handle := ZeroHash; clear := CBigInt 0 |}.
Proof.
  destruct (C5_zero_handle_short_circuit (state_after (alice_loaded ZeroHash)))
    as (s' & E & _ & _ & _ & R).
  - vm_compute. reflexivity.
  - exists s'. split; [exact E |]. apply R. vm_compute. reflexivity.
Defined.

(** ** Busy flags of the asynchronous runs *)

Lemma isStale_with_hook cap f s :
  stableMonitorRef (f (hook s)) = stableMonitorRef (hook s) →
  isStale cap (with_hook f s) = isStale cap s.
Proof. intros E. by apply isStale_ext. Qed.

Lemma resumed_remaining t r s :
  on_resumed t r s (λ next _ _,
    match next with
    | Some t' => remaining t' < remaining t
    | None => True
    end).
Proof. destruct t, r; resumed_cases; lia. Qed.



(** ** Staleness *)

Lemma stale_discarded t r s :
  stale_for t s →
  on_resumed t r s (λ next s' o,
    next = None
    ∧ balanceHandle (hook s') = balanceHandle (hook s)
    ∧ totalSupplyHandle (hook s') = totalSupplyHandle (hook s)
    ∧ riskThresholdHandle (hook s') = riskThresholdHandle (hook s)
    ∧ clearBalance (hook s') = clearBalance (hook s)
    ∧ clearBalanceRef (hook s') = clearBalanceRef (hook s)
    ∧ pool s' = pool s
    ∧ count is_refresh o = 0
    ∧ count is_call o = 0).
Proof.
  intros Hs.
  destruct t; simpl in Hs; try done; destruct r; resumed_cases;
    try (split_and!; reflexivity); exfalso;
    rewrite ?isStale_with_hook in * by reflexivity;
    try (apply isStale_true in Hs; congruence).
  unfold sameChain in *. split_bools.
  repeat match goal with
    | H : bool_decide _ = true |- _ => apply bool_decide_eq_true in H
    end.
  destruct Hs; congruence.
Qed.

(** The session a run captures when an operation starts it is the session
    of that moment: in the state the call leaves, the run is not stale,
    and the session stays what it is from one stretch to the next. *)
Lemma invoke_captures_session op s :
  on_cmd (invoke op) s (λ _ s' _, ∀ t cap,
    nextId s' = S (nextId s) → pool s' !! nextId s = Some t →
    task_session t = Some cap → isStale cap s' = false).
Proof.
  destruct op; cmd_cases; intros t cap Hn Hp Hc; try lia;
    rewrite lookup_insert_eq in Hp; simplify_eq; simpl in *; simplify_eq;
    apply isStale_false; simpl; by split_and!.
Qed.

Lemma resumed_keeps_session t r s :
  on_resumed t r s (λ next _ _,
    match next with
    | Some t' => task_session t' = task_session t
    | None => True
    end).
Proof. destruct t, r; resumed_cases; done. Qed.

(** C1, as stated, on a balance refresh: the refresh is started in
    Alice's session; the wallet switches to Bob (same chain, same
    contract); the three handles arrive and are stored, the balance handle
    of Alice among them, although the signer has changed. *)
Lemma C1_counterexample :
  let s0 := state_after [Switch alice] in
  let s := state_after [Switch alice; Switch bob;
                        Settle 0 (Handles "0xH1" "0xT1" "0xR1")] in
  ethersSigner (params s0) = Some "0xA1"
  ∧ pool s0 !! 0 = Some (RefreshFetch 31337 "0xC0" "0xA1")
  ∧ ethersSigner (params s) = Some "0xB0"
  ∧ balanceHandle (hook s) = Some "0xH1".
Proof. vm_compute. by split_and!. Qed.

(** C1, amended.  When the reply to an awaited call arrives in a session
    that has changed, the run ends there and nothing of it is stored: the
    three handles, the clear balance and its reference cell are as before,
    no refresh is invoked, no run is started and no call leaves the hook.
    A changed session is, for a balance refresh, another chain or another
    contract address (the signer is not looked at); for the decryption of
    the balance (after the signature and after the decryption) and for
    [issue], [transfer] and [updateRiskThreshold] (after the encryption
    and after the confirmation), another signer, another chain or another
    contract address.  So no balance decrypted in one session is stored
    after a switch to another. *)
Theorem C1_stale_result_is_discarded (t : Task) (r : Reply) (s : Sys)
    (next : option Task) (s' : Sys) (o : list Obs)
    (Hstale : stale_for t s)
    (Hrun : resumed t r s = Some (next, s', o)) :
  next = None
  ∧ balanceHandle (hook s') = balanceHandle (hook s)
  ∧ totalSupplyHandle (hook s') = totalSupplyHandle (hook s)
  ∧ riskThresholdHandle (hook s') = riskThresholdHandle (hook s)
  ∧ clearBalance (hook s') = clearBalance (hook s)
  ∧ clearBalanceRef (hook s') = clearBalanceRef (hook s)
  ∧ pool s' = pool s
  ∧ count is_refresh o = 0
  ∧ count is_call o = 0.
Proof.
  exact (on_resumed_elim _ _ _ _ _ _ _ (stale_discarded t r s Hstale) Hrun).
Qed.

(** Bob's session is the current one when Alice's decrypted balance
    arrives. *)
Lemma C1_witness :
  ∃ s' o,
    resumed (BalanceDecrypt alice_session "0xH1" alice_sig)
      (Decrypted {[ "0xH1" := CBigInt 1000 ]})
      (state_after alice_decrypting_then_bob) = Some (None, s', o)
    ∧ clearBalance (hook s') = None
    ∧ clearBalanceRef (hook s') = None.
Proof.
  destruct (resumed (BalanceDecrypt alice_session "0xH1" alice_sig)
              (Decrypted {[ "0xH1" := CBigInt 1000 ]})
              (state_after alice_decrypting_then_bob))
    as [[[next s'] o] |] eqn:E; [| vm_compute in E; discriminate E].
  assert (Hstale : stale_for (BalanceDecrypt alice_session "0xH1" alice_sig)
                     (state_after alice_decrypting_then_bob)).
  { left. vm_compute. discriminate. }
  destruct (C1_stale_result_is_discarded _ _ _ _ _ _ Hstale E)
    as (-> & _ & _ & _ & B & R & _).
  exists s', o. split; [reflexivity |].
  split; [rewrite B | rewrite R]; vm_compute; reflexivity.
Defined.

(** ** Refresh after a mutating operation *)

Lemma mutate_start op to amount s :
  on_cmd (mutate op to amount) s (λ _ s' o,
    (s' = s ∧ o = [])
    ∨ ∃ a, mut_op a = op ∧ mut_to a = to ∧ mut_amount a = amount
           ∧ pool s' = <[nextId s := MutDelay a]> (pool s)
           ∧ o = [Message (msg_start op to amount);
                  Called (CallSetTimeout 100)]).
Proof.
  cmd_cases; try (by left).
  right. eexists. split_and!; try reflexivity; done.
Qed.

Lemma count_app p o1 o2 : count p (o1 ++ o2) = count p o1 + count p o2.
Proof. induction o1 as [| x o1 IH]; simpl; [done | rewrite IH; lia]. Qed.

Lemma mut_stretch_refreshes t a r s :
  mut_args t = Some a →
  on_resumed t r s (λ next s' o,
    match next with
    | Some t' => mut_args t' = Some a ∧ count is_refresh o = 0
    | None =>
        count is_refresh o =
          match r with
          | Mined _ => if isStale (mut_session a) s then 0 else 1
          | _ => 0
          end
    end).
Proof.
  intros Ha.
  destruct t; simpl in Ha; simplify_eq; destruct r; resumed_cases;
    rewrite ?isStale_with_hook in * by reflexivity;
    try congruence; try done.
  by destruct (mut_op a).
Qed.

Lemma drive_mut_refreshes script : ∀ t a o,
  mut_args t = Some a →
  drive t script = Some (None, o) →
  count is_refresh o = if confirmed_fresh a script then 1 else 0.
Proof.
  induction script as [| [s r] rest IH]; intros t a o Ha H; [done |].
  simpl in H.
  pose proof (mut_stretch_refreshes t a r s Ha) as S. unfold on_resumed in S.
  destruct (resumed t r s) as [[[next s1] o1] |]; [| done]. simpl in H.
  destruct next as [t' |].
  - destruct S as [Ha' C1].
    destruct (drive t' rest) as [[fin o2] |] eqn:D; [| done].
    simpl in H. simplify_eq. rewrite count_app, C1. simpl.
    destruct rest as [| x rest']; [done |].
    rewrite (IH t' a o2 Ha' D). unfold confirmed_fresh.
    by rewrite last_cons_cons.
  - destruct rest; [| done]. simplify_eq. rewrite S.
    unfold confirmed_fresh. simpl. destruct r; try done.
    by destruct (isStale _ _).
Qed.

Lemma view_calls_app o1 o2 : view_calls (o1 ++ o2) = view_calls o1 ++ view_calls o2.
Proof.
  induction o1 as [| x o1 IH]; simpl; [done |].
  destruct x as [| c | |]; try done. destruct c; simpl; by rewrite ?IH.
Qed.

Lemma mut_stretch_fetches t a r s :
  mut_args t = Some a →
  on_resumed t r s (λ next s' o,
    match next with
    | Some t' => view_calls o = [] ∧ unchanged s s'
    | None =>
        match r with
        | Mined _ =>
            view_calls o = refresh_calls a s
            ∧ if negb (isStale (mut_session a) s) && refresh_open a s then
                ∃ chain user,
                  sm_chainId s = Some chain ∧ mut_userAddress a = Some user
                  ∧ pool s' = <[nextId s := RefreshFetch chain
                                  (thisContractAddress (mut_session a)) user]>
                                (pool s)
                  ∧ nextId s' = S (nextId s)
                  ∧ flag Refreshing (busyRef (hook s')) = true
              else pool s' = pool s ∧ nextId s' = nextId s
        | _ => view_calls o = [] ∧ pool s' = pool s ∧ nextId s' = nextId s
        end
    end).
Proof.
  intros Ha. unfold refresh_calls, refresh_open.
  destruct t; simpl in Ha; simplify_eq; destruct r; resumed_cases;
    rewrite ?isStale_with_hook in * by reflexivity;
    unfold sm_address, sm_chainId in *; simpl in *.
  all: try done.
  all: try (exfalso; destruct (stableMonitorRef (hook s)); simpl in *;
            bool_contra; fail).
  all: try (exfalso; bool_contra; fail).
  - by destruct (mut_op a).
  - assert (s0 = thisContractAddress (mut_session a)) as ->.
    { unfold isStale, sm_address in Heqb. rewrite Heqo0 in Heqb.
      split_bools.
      match goal with
      | H : bool_decide (Some _ = Some _) = true |- _ =>
          apply bool_decide_eq_true in H; congruence
      end. }
    split; [done |]. exists z, s1. split_and!; try done.
    by destruct (mut_op a).
  - exfalso. rewrite Heqb, Heqo, Heqo0 in Heqb2. simpl in *.
    destruct (isRefreshing (busyRef (hook s))), (bool_decide (s1 = "")),
      (bool_decide (z = 0%Z)), (bool_decide (s0 = "")),
      (bool_decide (is_Some (mut_provider a))),
      (bool_decide (is_Some (stableMonitorRef (hook s))));
      simpl in *; congruence.
Qed.

Lemma drive_mut_fetches script : ∀ t a o,
  mut_args t = Some a →
  drive t script = Some (None, o) →
  view_calls o = fetched a script.
Proof.
  induction script as [| [s r] rest IH]; intros t a o Ha H; [done |].
  simpl in H.
  pose proof (mut_stretch_fetches t a r s Ha) as S. unfold on_resumed in S.
  pose proof (mut_stretch_refreshes t a r s Ha) as S'. unfold on_resumed in S'.
  destruct (resumed t r s) as [[[next s1] o1] |]; [| done]. simpl in H.
  destruct next as [t' |].
  - destruct S as [C1 _]. destruct S' as [Ha' _].
    destruct (drive t' rest) as [[fin o2] |] eqn:D; [| done].
    simpl in H. simplify_eq. rewrite view_calls_app, C1. simpl.
    destruct rest as [| x rest']; [done |].
    rewrite (IH t' a o2 Ha' D). unfold fetched.
    by rewrite last_cons_cons.
  - destruct rest; [| done]. simplify_eq.
    unfold fetched. simpl. destruct r; by destruct S.
Qed.

(** C6, as stated, at a state the hook reaches: Alice's transfer waits
    for its confirmation while a refresh she asked for is in flight.  The
    confirmation arrives in her unchanged session; [refreshBalance] is
    called and returns at its first guard: no view call leaves the hook
    and no run is started, so no refresh follows the transfer. *)
Lemma C6_counterexample :
  let s := state_after transfer_during_refresh in
  pool s !! 1 = Some (MutConfirm alice_transfer "0xTX")
  ∧ pool s !! 2 = Some (RefreshFetch 31337 "0xC0" "0xA1")
  ∧ isStale (mut_session alice_transfer) s = false
  ∧ ∃ s' o, step (Settle 1 (Mined (Some receipt_ok))) s = Some (s', o)
            ∧ o = [Message "Transfer completed status=1"; RefreshInvoked]
            ∧ view_calls o = []
            ∧ pool s' !! 1 = None
            ∧ nextId s' = nextId s.
Proof.
  vm_compute. split_and!; try reflexivity.
  eexists _, _. split_and!; reflexivity.
Qed.

(** C6, amended.  A call of [issue], [transfer] or [updateRiskThreshold]
    does not itself call [refreshBalance] and makes no view call.  The run
    it starts, taken from its timer to its end under any replies and any
    states of the hook at the moments they arrive, calls [refreshBalance]
    once when it ends with the confirmation of its transaction in a
    session that is not stale at that moment, and not at all when it ends
    otherwise (a rejection, or a stale session at one of the two checks).
    That call fetches, that is, makes the three view calls [getBalance],
    [getTotalSupply] and [getRiskThreshold] once, starts the refresh run
    that awaits them and sets the refresh flag, exactly when the guards of
    [refreshBalance] are open at that moment: no refresh in flight, a user
    address and a provider in the closure, a chain id and an address in
    the deployment entry.  Otherwise the run makes no view call and starts
    no run. *)
Theorem C6_refresh_once_after_confirmation (a : MutArgs)
    (script : list (Sys * Reply)) (o : list Obs)
    (Hrun : drive (MutDelay a) script = Some (None, o)) :
  count is_refresh o = (if confirmed_fresh a script then 1 else 0)
  ∧ view_calls o = fetched a script
  ∧ (∀ hash receipt s,
       on_resumed (MutConfirm a hash) (Mined receipt) s (λ next s' o1,
         next = None
         ∧ view_calls o1 = refresh_calls a s
         ∧ if negb (isStale (mut_session a) s) && refresh_open a s then
             ∃ chain user,
               sm_chainId s = Some chain ∧ mut_userAddress a = Some user
               ∧ refresh_calls a s = awaits (RefreshFetch chain
                                       (thisContractAddress (mut_session a)) user)
               ∧ pool s' = <[nextId s := RefreshFetch chain
                               (thisContractAddress (mut_session a)) user]>
                             (pool s)
               ∧ flag Refreshing (busyRef (hook s')) = true
           else refresh_calls a s = [] ∧ pool s' = pool s))
  ∧ ∀ to amount s,
      on_cmd (mutate (mut_op a) to amount) s (λ _ _ o0,
        count is_refresh o0 = 0 ∧ view_calls o0 = []).
Proof.
  split_and!.
  - by apply (drive_mut_refreshes script (MutDelay a) a o).
  - by apply (drive_mut_fetches script (MutDelay a) a o).
  - intros hash receipt s.
    pose proof (mut_stretch_fetches (MutConfirm a hash) a (Mined receipt) s
                  eq_refl) as F.
    pose proof (resumed_remaining (MutConfirm a hash) (Mined receipt) s) as R.
    unfold on_resumed in *.
    destruct (resumed _ _ s) as [[[next s'] o1] |]; [| done].
    destruct next as [t' |].
    { exfalso. simpl in R. destruct t'; simpl in R; lia. }
    destruct F as [F1 F2]. split_and!; [done | done |].
    unfold refresh_calls in *.
    destruct (negb (isStale (mut_session a) s) && refresh_open a s).
    + destruct F2 as (chain & user & ? & Hu & ? & ? & ?).
      exists chain, user. rewrite Hu. by split_and!.
    + by destruct F2.
  - intros to amount s. pose proof (mutate_start (mut_op a) to amount s) as M.
    unfold on_cmd in *. destruct (mutate _ _ _ s) as [[u s1] o1].
    by destruct M as [[_ ->] | (a0 & _ & _ & _ & _ & ->)].
Qed.

(** Alice's transfer goes through and fetches once. *)
Lemma C6_witness :
  ∃ o, drive (MutDelay alice_transfer) transfer_script = Some (None, o)
       ∧ count is_refresh o = 1
       ∧ view_calls o = [CallGetBalance "0xC0" "0xA1";
                         CallGetTotalSupply "0xC0";
                         CallGetRiskThreshold "0xC0"].
Proof.
  destruct (drive (MutDelay alice_transfer) transfer_script)
    as [[fin o] |] eqn:E; [| vm_compute in E; discriminate E].
  assert (N : fin = None) by (vm_compute in E; congruence).
  subst fin. exists o. split; [reflexivity |].
  destruct (C6_refresh_once_after_confirmation _ _ _ E) as (H1 & H2 & _).
  split; [exact H1 | exact H2].
Defined.

(** ** Exclusion of a mutating operation with itself *)




Lemma run_Reachable table evs : ∀ s s' o,
  Reachable table s → run evs s = Some (s', o) → Reachable table s'.
Proof.
  induction evs as [| ev evs IH]; intros s s' o R H; simpl in H.
  - by simplify_eq.
  - destruct (step ev s) as [[s1 o1] |] eqn:E; [| done]. simpl in H.
    destruct (run evs s1) as [[s2 o2] |] eqn:E2; [| done]. simpl in H.
    simplify_eq. eapply IH; [| exact E2]. by eapply reach_step.
Qed.

Lemma state_after_Reachable evs : Reachable Demo.table (state_after evs).
Proof.
  unfold state_after.
  destruct (run evs (init Demo.table)) as [[s o] |] eqn:E.
  - eapply run_Reachable; [apply reach_init | exact E].
  - apply reach_init.
Qed.

(** A set flag always has its run in flight: no flag is left set by a run
    that has ended. *)
Lemma Reachable_flag_has_run table s k :
  Reachable table s → flag k (busyRef (hook s)) = true →
  ∃ i t, pool s !! i = Some t ∧ flag_of t = k.
Proof. intros R%Reachable_Inv. apply (inv_live _ _ _ _ R). Qed.



(** ** Outcome of a risk check *)

(** Where a stretch of [checkRisk] ends the run, it has set exactly one
    message, a verdict or a terminal error, except when [loadOrSign] has
    yielded no signature: then it has set none.  A stretch that suspends
    the run again sets none. *)
Lemma checkRisk_stretch_messages t r s :
  is_checkRisk t = true →
  on_resumed t r s (λ next s' o,
    match next with
    | Some t' => is_checkRisk t' = true ∧ messages o = []
    | None =>
        (∃ m, messages o = [m]
              ∧ (is_verdict m ∨ is_risk_error m))
        ∨ (messages o = [] ∧ r = Signature None
           ∧ ∃ cap h, t = RiskSign cap h)
    end).
Proof.
  intros Ht. unfold is_verdict, is_risk_error.
  destruct t; try discriminate Ht; destruct r; resumed_cases;
    try done;
    try (left; eexists; split; [reflexivity |]; naive_solver eauto).
  right. eauto.
Qed.

(** C2 at the failing input: the transaction of the risk check is mined
    and carries the event, then [loadOrSign] yields [null].  The run ends;
    its output holds no message at all, so the hook still shows the
    progress text "Checking risk for ..." and neither a verdict nor an
    error; the risk handle is set and has no clear value.  The same holds
    from every state at that [await]. *)
Theorem C2_checkRisk_null_signature_no_outcome :
  (∀ cap h s, ∃ s',
     resumed (RiskSign cap h) (Signature None) s = Some (None, s', [])
     ∧ message (hook s') = message (hook s)
     ∧ clearRiskFlag (hook s') = clearRiskFlag (hook s)
     ∧ flag CheckingRisk (busyRef (hook s')) = false)
  ∧ (let s := state_after risk_check_without_signature in
     pool s = ∅
     ∧ flag CheckingRisk (busyRef (hook s)) = false
     ∧ riskFlagHandle (hook s) = Some "0xF1"
     ∧ clearRiskFlag (hook s) = None
     ∧ message (hook s) = "Checking risk for 0xA1..."
     ∧ messages (output_after risk_check_without_signature)
       = [""; "Checking risk for 0xA1..."]).
Proof.
  split.
  - intros cap h s. eexists. split; [reflexivity |]. by split_and!.
  - vm_compute. by split_and!.
Qed.

(** ** Rejections *)

(** Outside [decryptBalance] no stretch leaves a rejection unhandled, and
    a rejected call ends the run with exactly one message. *)
Lemma rejections_are_caught t r s :
  is_decryptBalance t = false →
  on_resumed t r s (λ next s' o,
    count is_unhandled o = 0
    ∧ ∀ e, r = Rejected e → next = None ∧ ∃ m, messages o = [m]).
Proof.
  intros Ht.
  destruct t; try discriminate Ht; destruct r; resumed_cases;
    (split; [try done; by destruct (mut_op _) |]);
    intros e' E; simplify_eq; eauto.
Qed.

(** C3 at the failing input: a call awaited by [decryptBalance] is
    rejected.  The [try] of that run has a [finally] and no [catch]: the
    flag is cleared, no message is set, and the rejection leaves the run
    unhandled.  First for every state at either [await], then on the run
    of Alice from the first render. *)
Theorem C3_decryptBalance_rejection_escapes :
  (∀ cap h sig e s, ∃ s',
     resumed (BalanceDecrypt cap h sig) (Rejected e) s
       = Some (None, s', [Unhandled e])
     ∧ message (hook s') = message (hook s))
  ∧ (∀ cap h e s, ∃ s',
       resumed (BalanceSign cap h) (Rejected e) s
         = Some (None, s', [Unhandled e])
       ∧ message (hook s') = message (hook s))
  ∧ (let s := state_after decrypt_rejected in
     message (hook s) = "Calling FHEVM userDecrypt..."
     ∧ last (output_after decrypt_rejected) = Some (Unhandled "network down")
     ∧ flag Decrypting (busyRef (hook s)) = false).
Proof.
  split_and!.
  - intros. eexists. split; reflexivity.
  - intros. eexists. split; reflexivity.
  - vm_compute. by split_and!.
Qed.

(** ** The cached clear balance in the wallet view *)

(** The row of the decrypted balance is a function of the cached clear
    value alone. *)
Lemma decryptedBalanceRow_ignores_handle h h' :
  clearBalance h = clearBalance h' →
  decryptedBalanceRow h = decryptedBalanceRow h'.
Proof. unfold decryptedBalanceRow, returned_clear. by intros ->. Qed.

(** C4 at the failing input: Alice decrypts 5 tokens under handle 0xH1,
    transfers 2 tokens, and the refresh brings handle 0xH2.  The hook
    reports that the balance is not decrypted, the cached value still
    belongs to 0xH1, and the wallet view shows "5 tokens". *)
Theorem C4_stale_clear_balance_is_shown :
  let h := hook (state_after decrypt_then_transfer) in
  balanceHandle h = Some "0xH2"
  ∧ clearBalance h = Some {| handle := "0xH1"; clear := CBigInt 5 |}
  ∧ isBalanceDecrypted h = false
  ∧ decryptedBalanceRow h = "5 tokens".
Proof. vm_compute. by split_and!. Qed.

(** * Further properties of the hook *)

(** ** The two's-complement fix-up *)

Lemma signedFixup_upper_free v : upper_free (signedFixup v).
Proof.
  destruct v as [| s | n | b | n]; simpl; try done;
    destruct (2147483647 <? n)%Z eqn:E1; simpl;
    try destruct (n <=? 4294967295)%Z eqn:E2; simpl; lia.
Qed.

(** ** Coherence of the cached values and of the runs in flight *)

Lemma task_ok_ext t h h' :
  riskFlagHandle h' = riskFlagHandle h → task_ok t h → task_ok t h'.
Proof. destruct t; simpl; congruence. Qed.

Lemma task_ok_refresh t h : flag_of t = Refreshing → task_ok t h.
Proof. destruct t; simpl; try done; by destruct (mut_op _). Qed.

Lemma task_ok_other t h h' :
  flag_of t ≠ CheckingRisk → task_ok t h → task_ok t h'.
Proof. destruct t; simpl; try done. Qed.

Local Ltac solve_keeps :=
  unfold keeps_cells; simpl; split_and!; try done; try tauto.

Lemma invoke_cells op s :
  on_cmd (invoke op) s (λ _ s' _,
    params s' = params s
    ∧ stableMonitorRef (hook s') = stableMonitorRef (hook s)
    ∧ keeps_cells s s'
    ∧ (pool s' = pool s
       ∨ ∃ t, pool s' = <[nextId s := t]> (pool s) ∧ task_ok t (hook s'))).
Proof.
  destruct op; cmd_cases; split_and!; try done; try solve_keeps;
    try (by left); try (right; eexists; split; [reflexivity | simpl]; try done).
  - intros _ _. split; [done |]. simpl. split; [done | lia].
  - match goal with
    | H : bool_decide (_ = ZeroHash) = false |- _ =>
        by apply bool_decide_eq_false in H
    end.
Qed.

Lemma render_cells p s :
  on_cmd (render p) s (λ _ s' _,
    params s' = p
    ∧ keeps_cells s s'
    ∧ (stableMonitorRef (hook s')
       = (if bool_decide (chainId p = chainId (params s))
          then stableMonitorRef (hook s)
          else Some (getStableMonitorByChainId (StableMonitorAddresses s)
                       (chainId p))))
    ∧ (pool s' = pool s
       ∨ ∃ t, pool s' = <[nextId s := t]> (pool s) ∧ task_ok t (hook s'))).
Proof.
  cmd_cases; split_and!; try done; try solve_keeps;
    try (by left); right; eexists; (split; [reflexivity | done]).
Qed.

Lemma resumed_cells t r s :
  on_resumed t r s (λ next s' _,
    stableMonitorRef (hook s') = stableMonitorRef (hook s)
    ∧ (riskFlagHandle (hook s') = riskFlagHandle (hook s)
       ∨ flag_of t = CheckingRisk)
    ∧ (task_ok t (hook s) →
       clearBalance (hook s) = clearBalanceRef (hook s) →
       cached_ok (clearBalance (hook s)) →
       clearBalance (hook s') = clearBalanceRef (hook s')
       ∧ cached_ok (clearBalance (hook s'))
       ∧ match next with
         | Some t' => task_ok t' (hook s')
         | None => True
         end)).
Proof.
  destruct t, r; resumed_cases; split_and!; try done; try (by left);
    try (by right); try (intros; split_and!; done).
  intros Hne _ _. split_and!; try done. apply signedFixup_upper_free.
Qed.

Lemma Coherent_init table : Coherent (init table).
Proof. split; simpl; try done. Qed.

Lemma Coherent_starts s s' :
  Coherent s →
  keeps_cells s s' →
  stableMonitorRef (hook s')
  = Some (getStableMonitorByChainId (StableMonitorAddresses s')
            (chainId (params s'))) →
  (pool s' = pool s
   ∨ ∃ t, pool s' = <[nextId s := t]> (pool s) ∧ task_ok t (hook s')) →
  Coherent s'.
Proof.
  intros [Hr Hc Ht Hm] (Etab & Erisk & Hcells) Hmemo Hpool.
  destruct (Hcells Hr Hc) as [Hr' Hc'].
  split; try done.
  intros i t Hi.
  destruct Hpool as [E | (t0 & E & Hok)]; rewrite E in Hi.
  - eapply task_ok_ext; [exact Erisk | eauto].
  - apply lookup_insert_Some in Hi as [[_ <-] | [_ Hi]]; [done |].
    eapply task_ok_ext; [exact Erisk | eauto].
Qed.

Lemma Coherent_step ev s s' o :
  Inv s → Coherent s → step ev s = Some (s', o) → Coherent s'.
Proof.
  intros HI HC H. destruct ev as [p | op | i r]; simpl in H.
  - pose proof (render_cells p s) as S. unfold on_cmd, exec in *.
    destruct (render p s) as [[u s1] o1]. simplify_eq.
    destruct S as (Ep & Hk & Hm & Hp).
    apply (Coherent_starts s); try done.
    rewrite Hm, Ep. destruct Hk as (-> & _). case_bool_decide as E; [| done].
    rewrite E. apply (coh_memo _ HC).
  - pose proof (invoke_cells op s) as S. unfold on_cmd, exec in *.
    destruct (invoke op s) as [[u s1] o1]. simplify_eq.
    destruct S as (Ep & Hm & Hk & Hp).
    apply (Coherent_starts s); try done.
    rewrite Hm, Ep. destruct Hk as (-> & _). apply (coh_memo _ HC).
  - unfold settle in H.
    destruct (pool s !! i) as [t |] eqn:Hi; [| done]. simpl in H.
    pose proof (resumed_cells t r s) as C.
    pose proof (resumed_stretch t r s) as S.
    unfold on_resumed in *.
    destruct (resumed t r s) as [[[next s1] o1] |]; [| done]. simpl in H.
    simplify_eq.
    destruct S as (Etab & Epar & S).
    destruct C as (Em & Erisk & C).
    destruct HC as [Hr Hc Ht Hm].
    destruct (C (Ht _ _ Hi) Hr Hc) as (Hr' & Hc' & Hnext).
    assert (Hold : ∀ j tj, j ≠ i → pool s !! j = Some tj →
                           task_ok tj (hook s1)).
    { intros j tj Hj Hpj. destruct Erisk as [E | E].
      - eapply task_ok_ext; eauto.
      - eapply task_ok_other; [| eauto].
        intros Ej. apply Hj.
        apply (inv_uniq _ _ _ _ HI j i tj t Hpj Hi). congruence. }
    assert (Hmemo : stableMonitorRef (hook s1)
                    = Some (getStableMonitorByChainId
                              (StableMonitorAddresses s1)
                              (chainId (params s1)))).
    { by rewrite Em, Etab, Epar. }
    destruct next as [t' |]; simpl.
    + destruct S as (_ & Ep & _). split; simpl; try done.
      intros j tj [[<- <-] | [Hj Hpj]]%lookup_insert_Some; [done |].
      rewrite Ep in Hpj. eauto.
    + split; simpl; try done.
      intros j tj [Hj Hpj]%lookup_delete_Some.
      destruct S as [(Ep & _) | (rt & Ep & _ & Ert & _)]; rewrite Ep in Hpj.
      * eauto.
      * apply lookup_insert_Some in Hpj as [[_ <-] | [_ Hpj]];
          [by apply task_ok_refresh | eauto].
Qed.

Lemma Reachable_Coherent table s : Reachable table s → Coherent s.
Proof.
  induction 1 as [| s ev s' o R IH H]; [apply Coherent_init |].
  eapply Coherent_step; [| exact IH | exact H]. by eapply Reachable_Inv.
Qed.

Lemma Reachable_table table s :
  Reachable table s → StableMonitorAddresses s = table.
Proof.
  induction 1 as [| s ev s' o R IH H]; [done |].
  destruct ev as [p | op | i r]; simpl in H.
  - pose proof (render_starts p s) as S. unfold on_cmd, exec in *.
    destruct (render p s) as [[u s1] o1]. simplify_eq.
    destruct S as [-> _]. done.
  - pose proof (invoke_starts op s) as S. unfold on_cmd, exec in *.
    destruct (invoke op s) as [[u s1] o1]. simplify_eq.
    destruct S as [-> _]. done.
  - unfold settle in H.
    destruct (pool s !! i) as [t |]; [| done]. simpl in H.
    pose proof (resumed_stretch t r s) as S. unfold on_resumed in S.
    destruct (resumed t r s) as [[[next s1] o1] |]; [| done]. simpl in H.
    destruct S as (E & _). simplify_eq. by destruct next.
Qed.

(** ** The fix-up as a conversion from unsigned to signed *)

(** X1.  On a bigint in the unsigned 32-bit range the fix-up of
    [decryptBalance] yields the signed 32-bit integer with the same bits:
    a value in [-2^31, 2^31) congruent to the input modulo 2^32.  Applying
    it twice is applying it once. *)
Theorem signedFixup_uint32_to_int32 (v : Z)
    (Hv : (0 <= v < 4294967296)%Z) :
  (∃ w, signedFixup (CBigInt v) = CBigInt w
        ∧ (-2147483648 <= w < 2147483648)%Z
        ∧ (w mod 4294967296 = v)%Z)
  ∧ signedFixup (signedFixup (CBigInt v)) = signedFixup (CBigInt v).
Proof.
  unfold signedFixup at 1 3 4.
  destruct (2147483647 <? v)%Z eqn:E1; simpl;
    [destruct (v <=? 4294967295)%Z eqn:E2; simpl |].
  - split.
    + eexists. split; [reflexivity |]. split; [lia |].
      rewrite <- (Z.mod_small v 4294967296) at 2 by lia.
      replace (v - 4294967296)%Z with (v + (-1) * 4294967296)%Z by lia.
      apply Z_mod_plus_full.
    + simpl. replace (2147483647 <? v - 4294967296)%Z with false by lia.
      done.
  - lia.
  - split.
    + eexists. split; [reflexivity |]. split; [lia |].
      apply Z.mod_small. lia.
    + simpl. by rewrite E1.
Qed.

(** The largest unsigned value is shown as -1. *)
Lemma signedFixup_uint32_to_int32_witness :
  ∃ w, signedFixup (CBigInt 4294967295) = CBigInt w
       ∧ (-2147483648 <= w < 2147483648)%Z
       ∧ (w mod 4294967296 = 4294967295)%Z.
Proof.
  apply (signedFixup_uint32_to_int32 4294967295). lia.
Defined.

(** ** The cached clear balance in the reachable states *)

(** X2.  In every state the hook reaches, a clear balance cached for the
    zero handle is the bigint 0, and no cached clear balance is a numeric
    value in the upper half of the unsigned 32-bit range; the state cell
    and the reference cell of the cache hold the same value. *)
Theorem Reachable_cached_balance (table : gmap Z Entry) (s : Sys)
    (c : ClearValueType)
    (Hreach : Reachable table s)
    (Hc : clearBalance (hook s) = Some c) :
  clearBalanceRef (hook s) = Some c
  ∧ (handle c = ZeroHash → clear c = CBigInt 0)
  ∧ (∀ n, clear c = CBigInt n ∨ clear c = CNumber n →
          ¬ (2147483647 < n ∧ n <= 4294967295)%Z).
Proof.
  destruct (Reachable_Coherent _ _ Hreach) as [Hr Hk _ _].
  rewrite Hc in Hk. destruct Hk as [Hz Hu]. split_and!.
  - by rewrite <- Hr.
  - exact Hz.
  - intros n [E | E]; rewrite E in Hu; exact Hu.
Qed.

(** Alice's balance handle is the zero handle and she asks for her
    balance. *)
Lemma Reachable_cached_balance_witness :
  let s := state_after (alice_loaded ZeroHash ++ [Invoke DoDecryptBalance]) in
  clearBalanceRef (hook s)
  = Some {| handle := ZeroHash; clear := CBigInt 0 |}.
Proof.
  apply (Reachable_cached_balance Demo.table _
           {| handle := ZeroHash; clear := CBigInt 0 |}).
  - apply state_after_Reachable.
  - vm_compute. reflexivity.
Defined.

(** ** The [can...] values and the guards of the operations *)

Lemma bool_decide_Some {A} `{EqDecision A} (a b : A) :
  bool_decide (Some a = Some b) = bool_decide (a = b).
Proof. apply bool_decide_ext. split; congruence. Qed.

Lemma Reachable_busy table s : Reachable table s → busy (hook s) = busyRef (hook s).
Proof. intros R%Reachable_Inv. apply (inv_busy _ _ _ _ R). Qed.

(** X3.  In every state the hook reaches, [decryptBalance] starts a
    decryption exactly when [canDecrypt] holds: it then sets the flag,
    shows "Start decrypting balance..." and calls [loadOrSign] for the
    current balance handle in the current session.  When [canDecrypt] does
    not hold it starts no run, makes no call and sets no message. *)
Theorem canDecrypt_iff_decryption_starts (table : gmap Z Entry) (s : Sys)
    (Hreach : Reachable table s) :
  on_cmd decryptBalance s (λ _ s' o,
    if canDecrypt s then
      ∃ cap h,
        balanceHandle (hook s) = Some h
        ∧ pool s' = <[nextId s := BalanceSign cap h]> (pool s)
        ∧ isStale cap s' = false
        ∧ flag Decrypting (busyRef (hook s')) = true
        ∧ o = [Message "Start decrypting balance...";
               Called (CallLoadOrSign (thisContractAddress cap)
                         (thisEthersSigner cap))]
    else pool s' = pool s ∧ o = []).
Proof.
  pose proof (Reachable_busy _ _ Hreach) as Hb.
  pose proof (coh_ref _ (Reachable_Coherent _ _ Hreach)) as Hr.
  unfold canDecrypt. rewrite Hb, Hr.
  cmd_cases; try (by split); rewrite ?bool_decide_Some in *;
    try (exfalso; bool_contra; fail).
  eexists _, _. split_and!; try reflexivity.
  apply isStale_false. simpl. by split_and!.
Qed.

(** Alice's handle is loaded and nothing is in flight. *)
Lemma canDecrypt_iff_decryption_starts_witness :
  on_cmd decryptBalance (state_after (alice_loaded "0xH1")) (λ _ s' o,
    ∃ cap h,
      balanceHandle (hook (state_after (alice_loaded "0xH1"))) = Some h
      ∧ pool s' = <[nextId (state_after (alice_loaded "0xH1"))
                    := BalanceSign cap h]>
                    (pool (state_after (alice_loaded "0xH1")))
      ∧ isStale cap s' = false
      ∧ flag Decrypting (busyRef (hook s')) = true
      ∧ o = [Message "Start decrypting balance...";
             Called (CallLoadOrSign (thisContractAddress cap)
                       (thisEthersSigner cap))]).
Proof.
  pose proof (canDecrypt_iff_decryption_starts Demo.table
                (state_after (alice_loaded "0xH1"))
                (state_after_Reachable _)) as H.
  unfold on_cmd in *.
  destruct (decryptBalance (state_after (alice_loaded "0xH1")))
    as [[u s'] o].
  replace (canDecrypt (state_after (alice_loaded "0xH1"))) with true in H
    by (vm_compute; reflexivity).
  exact H.
Defined.

(** X4.  In every state the hook reaches, [issue], [transfer] and
    [updateRiskThreshold] start their run exactly when the matching
    [can...] value holds and the argument passes its test (an amount not
    [<= 0], a threshold not [< 0]; [NaN] passes both): the run captures
    the arguments and the current session.  Otherwise the call changes
    nothing. *)
Theorem canMutate_iff_run_starts (table : gmap Z Entry) (s : Sys)
    (op : MutOp) (to : string) (amount : number)
    (Hreach : Reachable table s) :
  on_cmd (mutate op to amount) s (λ _ s' o,
    if canMutate op s && negb (mut_rejects op amount) then
      ∃ a,
        pool s' = <[nextId s := MutDelay a]> (pool s)
        ∧ mut_op a = op ∧ mut_to a = to ∧ mut_amount a = amount
        ∧ isStale (mut_session a) s' = false
        ∧ flag (mut_flag op) (busyRef (hook s')) = true
        ∧ message (hook s') = msg_start op to amount
    else s' = s ∧ o = []).
Proof.
  pose proof (Reachable_busy _ _ Hreach) as Hb.
  unfold canMutate. rewrite Hb.
  cmd_cases; try (by split); try (exfalso; bool_contra; fail).
  eexists. split_and!; try reflexivity.
  - apply isStale_false. simpl. by split_and!.
  - apply flag_set_same.
Qed.

(** Alice is ready and transfers 50 tokens. *)
Lemma canMutate_iff_run_starts_witness :
  on_cmd (mutate OpTransfer "0xB0" (Num 50)) (state_after (alice_loaded "0xH1"))
    (λ _ s' o,
      ∃ a,
        pool s' = <[nextId (state_after (alice_loaded "0xH1")) := MutDelay a]>
                    (pool (state_after (alice_loaded "0xH1")))
        ∧ mut_op a = OpTransfer ∧ mut_to a = "0xB0" ∧ mut_amount a = Num 50
        ∧ isStale (mut_session a) s' = false
        ∧ flag (mut_flag OpTransfer) (busyRef (hook s')) = true
        ∧ message (hook s') = msg_start OpTransfer "0xB0" (Num 50)).
Proof.
  pose proof (canMutate_iff_run_starts Demo.table
                (state_after (alice_loaded "0xH1")) OpTransfer "0xB0" (Num 50)
                (state_after_Reachable _)) as H.
  unfold on_cmd in *.
  destruct (mutate OpTransfer "0xB0" (Num 50)
              (state_after (alice_loaded "0xH1"))) as [[u s'] o].
  replace (canMutate OpTransfer (state_after (alice_loaded "0xH1"))) with true
    in H by (vm_compute; reflexivity).
  exact H.
Defined.

(** X5.  In every state the hook reaches, [refreshBalance], called with
    the closure of the last render, starts its three view calls exactly
    when [canGetBalance] holds and the deployment entry carries a non-zero
    chain id; otherwise no call leaves the hook and no run is started. *)
Theorem refresh_starts_iff_ready (table : gmap Z Entry) (s : Sys)
    (Hreach : Reachable table s) :
  on_cmd (invoke DoRefreshBalance) s (λ _ s' o,
    if refresh_ready s then
      ∃ chain contract user,
        sm_chainId s = Some chain ∧ sm_address s = Some contract
        ∧ userAddress (params s) = Some user
        ∧ pool s' = <[nextId s := RefreshFetch chain contract user]> (pool s)
        ∧ flag Refreshing (busyRef (hook s')) = true
        ∧ o = [RefreshInvoked; Called (CallGetBalance contract user);
               Called (CallGetTotalSupply contract);
               Called (CallGetRiskThreshold contract)]
    else pool s' = pool s ∧ o = [RefreshInvoked]).
Proof.
  pose proof (Reachable_busy _ _ Hreach) as Hb.
  unfold refresh_ready, canGetBalance. rewrite Hb.
  cmd_cases; try (by split); try (exfalso; bool_contra; fail).
  - exfalso. unfold sm_address, sm_chainId in *.
    destruct (stableMonitorRef (hook s)); simpl in *; bool_contra.
  - eexists _, _, _. by split_and!.
Qed.

(** Alice presses Refresh after her first handles have arrived. *)
Lemma refresh_starts_iff_ready_witness :
  on_cmd (invoke DoRefreshBalance) (state_after (alice_loaded "0xH1"))
    (λ _ s' o,
      ∃ chain contract user,
        sm_chainId (state_after (alice_loaded "0xH1")) = Some chain
        ∧ sm_address (state_after (alice_loaded "0xH1")) = Some contract
        ∧ userAddress (params (state_after (alice_loaded "0xH1"))) = Some user
        ∧ pool s' = <[nextId (state_after (alice_loaded "0xH1"))
                      := RefreshFetch chain contract user]>
                      (pool (state_after (alice_loaded "0xH1")))
        ∧ flag Refreshing (busyRef (hook s')) = true
        ∧ o = [RefreshInvoked; Called (CallGetBalance contract user);
               Called (CallGetTotalSupply contract);
               Called (CallGetRiskThreshold contract)]).
Proof.
  pose proof (refresh_starts_iff_ready Demo.table
                (state_after (alice_loaded "0xH1"))
                (state_after_Reachable _)) as H.
  unfold on_cmd in *.
  destruct (invoke DoRefreshBalance (state_after (alice_loaded "0xH1")))
    as [[u s'] o].
  replace (refresh_ready (state_after (alice_loaded "0xH1"))) with true
    in H by (vm_compute; reflexivity).
  exact H.
Defined.

(** X6.  [decryptBalance] and [decryptRiskThreshold] share one busy flag:
    in every state the hook reaches, while a run of either is in flight
    the flag is set, a call of either returns at once and changes nothing,
    and no second decryption run is in flight. *)
Theorem decryptions_exclude_each_other (table : gmap Z Entry) (s : Sys)
    (i : nat) (t : Task)
    (Hreach : Reachable table s)
    (Hflight : pool s !! i = Some t)
    (Hdec : flag_of t = Decrypting) :
  flag Decrypting (busyRef (hook s)) = true
  ∧ decryptBalance s = ((), s, [])
  ∧ decryptRiskThreshold s = ((), s, [])
  ∧ (∀ j t', pool s !! j = Some t' → flag_of t' = Decrypting → j = i).
Proof.
  pose proof (Reachable_Inv _ _ Hreach) as [Hb Hf Hu _ _].
  assert (F : flag Decrypting (busyRef (hook s)) = true).
  { rewrite <- Hdec. eauto. }
  simpl in F. split_and!.
  - exact F.
  - cmd_unfold. cbv beta iota zeta. simpl. by rewrite F, orb_true_r.
  - cmd_unfold. cbv beta iota zeta. simpl. by rewrite F, orb_true_r.
  - intros j t' Hj Ej. apply (Hu j i t' t Hj Hflight). congruence.
Qed.

(** Alice's balance decryption waits for its signature. *)
Lemma decryptions_exclude_each_other_witness :
  decryptRiskThreshold
    (state_after (alice_loaded "0xH1" ++ [Invoke DoDecryptBalance]))
  = ((), state_after (alice_loaded "0xH1" ++ [Invoke DoDecryptBalance]), []).
Proof.
  destruct (decryptions_exclude_each_other Demo.table
              (state_after (alice_loaded "0xH1" ++ [Invoke DoDecryptBalance]))
              1 (BalanceSign alice_session "0xH1"))
    as (_ & _ & E & _).
  - apply state_after_Reachable.
  - vm_compute. reflexivity.
  - reflexivity.
  - exact E.
Defined.

(** ** refreshBalance *)

(** X7.  The reply to the three view calls of [refreshBalance] ends the
    refresh and clears its flag.  The three handles are stored together
    when the chain and the contract address are those the fetch was
    started with, and none of them is touched otherwise; a rejection
    leaves all three as they were and shows "Failed to fetch balance".
    In no case is the cached clear balance changed. *)
Theorem refresh_commits_all_or_nothing (chain : Z) (contract user : string)
    (s : Sys) :
  (∀ b ts rt, ∃ s',
     resumed (RefreshFetch chain contract user) (Handles b ts rt) s
       = Some (None, s', [])
     ∧ flag Refreshing (busyRef (hook s')) = false
     ∧ clearBalance (hook s') = clearBalance (hook s)
     ∧ ((chainId (params s) = Some chain ∧ sm_address s = Some contract
         ∧ balanceHandle (hook s') = Some b
         ∧ totalSupplyHandle (hook s') = Some ts
         ∧ riskThresholdHandle (hook s') = Some rt)
        ∨ ((chainId (params s) ≠ Some chain ∨ sm_address s ≠ Some contract)
           ∧ balanceHandle (hook s') = balanceHandle (hook s)
           ∧ totalSupplyHandle (hook s') = totalSupplyHandle (hook s)
           ∧ riskThresholdHandle (hook s') = riskThresholdHandle (hook s))))
  ∧ (∀ e, ∃ s',
       resumed (RefreshFetch chain contract user) (Rejected e) s
         = Some (None, s', [Message ("Failed to fetch balance: " +:+ e)])
       ∧ flag Refreshing (busyRef (hook s')) = false
       ∧ clearBalance (hook s') = clearBalance (hook s)
       ∧ balanceHandle (hook s') = balanceHandle (hook s)
       ∧ totalSupplyHandle (hook s') = totalSupplyHandle (hook s)
       ∧ riskThresholdHandle (hook s') = riskThresholdHandle (hook s)).
Proof.
  split.
  - intros b ts rt.
    cbv [resumed resume continue option_bind mbind]. cmd_unfold.
    cbv beta iota zeta.
    destruct (sameChain s (Some chain)
              && bool_decide (Some contract = sm_address s)) eqn:E;
      cbv beta iota zeta; simpl; eexists; split_and!; try reflexivity.
    + left. unfold sameChain in E. split_bools.
      repeat match goal with
        | H : bool_decide _ = true |- _ => apply bool_decide_eq_true in H
        end.
      by split_and!.
    + right. split_and!; try reflexivity.
      apply andb_false_iff in E as [E | E]; unfold sameChain in E;
        apply bool_decide_eq_false in E; [left | right]; congruence.
  - intros e. eexists. by split_and!.
Qed.

(** X8.  Called while no refresh is in flight and with an account, but
    without a usable deployment or provider, [refreshBalance] sets the
    balance handle to undefined and does nothing else: the other handles
    and the cached clear balance stay, no call leaves, no flag is set. *)
Theorem refresh_without_deployment_clears_handle (user provider : option string)
    (s : Sys)
    (Hidle : flag Refreshing (busyRef (hook s)) = false)
    (Huser : truthy user = true)
    (Hmissing : truthy (sm_address s) = false ∨ truthyZ (sm_chainId s) = false
                ∨ provider = None) :
  refreshBalance user provider s
  = ((), with_hook (with_balanceHandle None) s, [RefreshInvoked]).
Proof.
  cmd_unfold. cbv beta iota zeta. simpl in Hidle. simpl.
  rewrite Hidle, Huser. simpl.
  destruct Hmissing as [H | [H | ->]].
  - rewrite H. simpl. by rewrite !orb_true_r.
  - rewrite H. simpl. by rewrite !orb_true_r.
  - simpl. by rewrite !orb_true_r.
Qed.

(** Alice's handles are loaded; the wallet switches to a chain without
    deployment: the balance handle is gone, the total supply handle
    stays. *)
Lemma refresh_without_deployment_clears_handle_witness :
  let s := state_after (alice_loaded "0xH1" ++ [Switch carol_elsewhere]) in
  refreshBalance (Some "0xCA") (Some "rpc1") s
  = ((), with_hook (with_balanceHandle None) s, [RefreshInvoked])
  ∧ balanceHandle (hook s) = None
  ∧ totalSupplyHandle (hook s) = Some "0xT1".
Proof.
  split.
  - apply refresh_without_deployment_clears_handle.
    + vm_compute. reflexivity.
    + reflexivity.
    + left. vm_compute. reflexivity.
  - vm_compute. by split.
Defined.

(** ** The deployment of the active chain *)

Lemma getStableMonitorByChainId_address_aux (table : gmap Z Entry)
    (c : option Z) :
  (∀ a, info_address (getStableMonitorByChainId table c) = Some a ↔
        ∃ n e, c = Some n ∧ n ≠ 0%Z ∧ table !! n = Some e
               ∧ entry_address e = a ∧ a ≠ ZeroAddress)
  ∧ (info_chainId (getStableMonitorByChainId table c) = None ↔
     c = None ∨ c = Some 0%Z).
Proof.
  unfold getStableMonitorByChainId.
  destruct c as [n |]; [| split; [intros a; split; [done | naive_solver]
                                | naive_solver]].
  case_bool_decide as En.
  { subst n. split; [intros a; split; [done | naive_solver] | naive_solver]. }
  destruct (table !! n) as [e |] eqn:Et.
  - case_bool_decide as Ea; simpl.
    + split; [intros a; split; [done | naive_solver] | naive_solver].
    + split; [intros a; split | naive_solver].
      * intros [= <-]. eauto 10.
      * intros (n' & e' & [= <-] & _ & Et' & <- & _). congruence.
  - simpl. split; [intros a; split; [done | naive_solver] | naive_solver].
Qed.

(** X9.  [getStableMonitorByChainId] yields an address exactly when the
    chain id is a non-zero number with an entry in the generated table
    whose address is not the zero address, and it is that address; so it
    never yields the zero address.  It records no chain id exactly when
    the chain id is undefined or 0. *)
Theorem getStableMonitorByChainId_address (table : gmap Z Entry)
    (c : option Z) :
  (∀ a, info_address (getStableMonitorByChainId table c) = Some a ↔
        ∃ n e, c = Some n ∧ n ≠ 0%Z ∧ table !! n = Some e
               ∧ entry_address e = a ∧ a ≠ ZeroAddress)
  ∧ (info_chainId (getStableMonitorByChainId table c) = None ↔
     c = None ∨ c = Some 0%Z).
Proof. apply getStableMonitorByChainId_address_aux. Qed.




(** X11.  A render with new parameters changes none of the cached values:
    the clear balance and its reference cell, the total-supply and
    threshold handles, the clear threshold, the risk handle and the clear
    risk flag are as before whatever the new account or chain is; the
    balance handle is as before or has become undefined. *)
Theorem render_keeps_cached_values (p : Params) (s : Sys) :
  on_cmd (render p) s (λ _ s' _,
    clearBalance (hook s') = clearBalance (hook s)
    ∧ clearBalanceRef (hook s') = clearBalanceRef (hook s)
    ∧ totalSupplyHandle (hook s') = totalSupplyHandle (hook s)
    ∧ riskThresholdHandle (hook s') = riskThresholdHandle (hook s)
    ∧ clearRiskThreshold (hook s') = clearRiskThreshold (hook s)
    ∧ riskFlagHandle (hook s') = riskFlagHandle (hook s)
    ∧ clearRiskFlag (hook s') = clearRiskFlag (hook s)
    ∧ (balanceHandle (hook s') = balanceHandle (hook s)
       ∨ balanceHandle (hook s') = None)).
Proof. cmd_cases; split_and!; try done; auto. Qed.

(** ** The log of a risk check *)

Lemma findRiskHandle_skip contract log rest :
  (∀ h, ¬ qualifies contract log h) →
  findRiskHandle contract (log :: rest) = findRiskHandle contract rest.
Proof.
  intros Hq. simpl.
  case_bool_decide as Ea; simpl; [| done].
  destruct (log_parsed log) as [| | name args] eqn:Ep; try done.
  case_bool_decide as En; [| done]. subst name.
  destruct (args !! 1%nat) as [h |] eqn:Eh; [| done].
  exfalso. apply (Hq h). split; [done | eauto].
Qed.

Lemma findRiskHandle_hit contract log rest h :
  qualifies contract log h →
  findRiskHandle contract (log :: rest) = Some h.
Proof.
  intros [Ea (args & Ep & Eh)]. simpl.
  rewrite (bool_decide_true _ Ea). simpl. rewrite Ep. simpl. by rewrite Eh.
Qed.

Lemma qualifies_dec contract log :
  (∃ h, qualifies contract log h) ∨ (∀ h, ¬ qualifies contract log h).
Proof.
  unfold qualifies.
  destruct (decide (toLowerCase <$> log_address log
                    = Some (toLowerCase contract))) as [Ea | Ea];
    [| right; naive_solver].
  destruct (log_parsed log) as [| | name args] eqn:Ep;
    try (right; naive_solver).
  destruct (decide (name = "RiskCheck")) as [-> | En];
    [| right; naive_solver].
  destruct (args !! 1%nat) as [h |] eqn:Eh; [| right; naive_solver].
  left. exists h. eauto.
Qed.

(** X12.  The handle [checkRisk] takes from a receipt is the second
    argument of the first log that comes from the contract and parses as a
    [RiskCheck] event with at least two arguments; logs of other
    addresses, logs that do not parse and other events before it are
    skipped.  No handle is found exactly when no log is of that kind. *)
Theorem findRiskHandle_first_match (contract : string) (ls : list Log) :
  (∀ h, findRiskHandle contract ls = Some h ↔
        ∃ before log after,
          ls = before ++ log :: after
          ∧ qualifies contract log h
          ∧ ∀ l h', l ∈ before → ¬ qualifies contract l h')
  ∧ (findRiskHandle contract ls = None ↔
     ∀ l h, l ∈ ls → ¬ qualifies contract l h).
Proof.
  induction ls as [| log rest [IHs IHn]].
  - split.
    + intros h. split; [done |].
      intros (before & log & after & E & _). by destruct before.
    + split; [| done]. intros _ l h Hl. by apply elem_of_nil in Hl.
  - destruct (qualifies_dec contract log) as [[h0 Hq] | Hq].
    + rewrite (findRiskHandle_hit _ _ _ _ Hq). split.
      * intros h. split.
        -- intros [= <-]. exists [], log, rest. split_and!; try done.
           intros l h' Hl. by apply elem_of_nil in Hl.
        -- intros (before & log' & after & E & Hq' & Hb).
           destruct before as [| b before]; simpl in E; simplify_eq.
           ++ destruct Hq as [_ (a1 & E1 & H1)].
              destruct Hq' as [_ (a2 & E2 & H2)]. congruence.
           ++ exfalso. apply (Hb b h0); [left | done].
      * split; [done |]. intros H. exfalso. apply (H log h0); [left | done].
    + rewrite (findRiskHandle_skip _ _ _ Hq). split.
      * intros h. rewrite IHs. split.
        -- intros (before & log' & after & -> & Hq' & Hb).
           exists (log :: before), log', after. split_and!; try done.
           intros l h' [-> | Hl]%elem_of_cons; [apply Hq | by apply Hb].
        -- intros (before & log' & after & E & Hq' & Hb).
           destruct before as [| b before]; simpl in E; simplify_eq.
           ++ exfalso. by apply (Hq h).
           ++ exists before, log', after. split_and!; try done.
              intros l h' Hl. apply Hb. by right.
      * rewrite IHn. split.
        -- intros H l h [-> | Hl]%elem_of_cons; [apply Hq | by apply H].
        -- intros H l h Hl. apply H. by right.
Qed.

Lemma lower_ascii_idem c : lower_ascii (lower_ascii c) = lower_ascii c.
Proof. by destruct c as [[] [] [] [] [] [] [] []]. Qed.

Lemma toLowerCase_idem s : toLowerCase (toLowerCase s) = toLowerCase s.
Proof.
  induction s as [| c s IH]; simpl; [done |]. by rewrite lower_ascii_idem, IH.
Qed.

Lemma toLowerCase_empty s : toLowerCase s = "" ↔ s = "".
Proof. by destruct s. Qed.

Lemma truthy_toLowerCase u : truthy (toLowerCase <$> u) = truthy u.
Proof.
  destruct u as [u |]; simpl; [| done]. f_equal.
  apply bool_decide_ext, toLowerCase_empty.
Qed.

(** X13.  [checkRisk] compares the contract address with the address of a
    log without regard to the case of the letters: two spellings of the
    contract address that agree in lower case find the same handle in
    every list of logs. *)
Theorem findRiskHandle_case_insensitive (contract contract' : string)
    (ls : list Log)
    (Hsame : toLowerCase contract = toLowerCase contract') :
  findRiskHandle contract ls = findRiskHandle contract' ls.
Proof.
  induction ls as [| log rest IH]; simpl; [done |]. by rewrite Hsame, IH.
Qed.

(** The contract address in checksum case and in lower case. *)
Lemma findRiskHandle_case_insensitive_witness :
  findRiskHandle "0xC0" (logs risk_receipt)
  = findRiskHandle "0xc0" (logs risk_receipt).
Proof.
  apply findRiskHandle_case_insensitive. reflexivity.
Defined.

(** X14.  [isIssuer] holds exactly when both addresses are present and
    non-empty and agree in lower case; so it is symmetric, and it does not
    change when the user address is put in lower case. *)
Theorem isIssuer_case_insensitive (u i : option string) :
  (isIssuer u i = true ↔
   truthy u = true ∧ truthy i = true
   ∧ toLowerCase <$> u = toLowerCase <$> i)
  ∧ isIssuer u i = isIssuer i u
  ∧ isIssuer (toLowerCase <$> u) i = isIssuer u i.
Proof.
  unfold isIssuer. split_and!.
  - destruct (truthy u), (truthy i); simpl;
      rewrite ?bool_decide_eq_true; naive_solver.
  - destruct (truthy u), (truthy i); simpl; try done.
    apply bool_decide_ext. naive_solver.
  - rewrite truthy_toLowerCase.
    destruct (truthy u), (truthy i); simpl; try done.
    apply bool_decide_ext.
    destruct u as [u |]; simpl; [| done]. by rewrite toLowerCase_idem.
Qed.

(** ** The verdict of a risk check *)

(** X15.  In every state the hook reaches, when the decryption of a risk
    check comes back, the clear flag is stored under the very handle that
    [riskFlagHandle] shows, the message carries the verdict read off that
    flag, the run ends and its busy flag is cleared.  The badge of the
    view shows the same verdict, and is hidden when the result holds no
    value for the handle (the message then says SAFE). *)
Theorem risk_verdict_matches_handle (table : gmap Z Entry) (s : Sys)
    (i : nat) (cap : Session) (h : string) (sig : FhevmDecryptionSignature)
    (res : gmap string Clear)
    (Hreach : Reachable table s)
    (Hflight : pool s !! i = Some (RiskDecrypt cap h sig)) :
  ∃ s' o,
    step (Settle i (Decrypted res)) s = Some (s', o)
    ∧ riskFlagHandle (hook s') = Some h
    ∧ clearRiskFlag (hook s')
      = Some {| handle := h; clear := res_get res h |}
    ∧ message (hook s')
      = "Risk check completed: "
        +:+ (if clear_truthy (res_get res h) then "RISK DETECTED" else "SAFE")
    ∧ riskBadge (hook s')
      = match res_get res h with
        | CUndefined => None
        | v => Some (clear_truthy v)
        end
    ∧ pool s' !! i = None
    ∧ flag CheckingRisk (busyRef (hook s')) = false.
Proof.
  pose proof (coh_tasks _ (Reachable_Coherent _ _ Hreach) _ _ Hflight) as Hh.
  simpl in Hh.
  simpl. unfold settle. rewrite Hflight. simpl.
  eexists _, _. split; [reflexivity |]. simpl.
  split_and!; try done.
  apply lookup_delete_eq.
Qed.

(** Alice's risk check is waiting for the decryption of its flag. *)
Lemma risk_verdict_matches_handle_witness :
  ∃ s' o,
    step (Settle 1 (Decrypted {[ "0xF1" := CBoolean true ]}))
      (state_after risk_check_to_decryption) = Some (s', o)
    ∧ riskFlagHandle (hook s') = Some "0xF1"
    ∧ message (hook s') = "Risk check completed: RISK DETECTED"
    ∧ riskBadge (hook s') = Some true.
Proof.
  destruct (risk_verdict_matches_handle Demo.table
              (state_after risk_check_to_decryption) 1 alice_session "0xF1"
              alice_sig {[ "0xF1" := CBoolean true ]})
    as (s' & o & E & H1 & _ & H3 & H4 & _).
  - apply state_after_Reachable.
  - vm_compute. reflexivity.
  - exists s', o. split_and!; [exact E | exact H1 | exact H3 | exact H4].
Defined.

(** ** decryptRiskThreshold *)

(** X16.  [decryptRiskThreshold] looks at the session twice: when the
    grant transaction is mined and when the signature is there.  In a
    changed session it ends there with "Ignore threshold decrypt", stores
    nothing and makes no further call.  After [userDecrypt] it does not
    look again: the value is stored under the handle fetched in the run,
    in a changed session too. *)
Theorem threshold_decryption_session_checks (cap : Session) (s : Sys)
    (Hchanged : session_changed cap s) :
  (∀ hash receipt, ∃ s',
     resumed (ThresholdGrantWait cap hash) (Mined receipt) s
       = Some (None, s', [Message "Ignore threshold decrypt"])
     ∧ clearRiskThreshold (hook s') = clearRiskThreshold (hook s)
     ∧ flag Decrypting (busyRef (hook s')) = false)
  ∧ (∀ h sig, ∃ s',
       resumed (ThresholdSign cap h) (Signature (Some sig)) s
         = Some (None, s', [Message "Ignore threshold decrypt"])
       ∧ clearRiskThreshold (hook s') = clearRiskThreshold (hook s)
       ∧ flag Decrypting (busyRef (hook s')) = false)
  ∧ (∀ h sig res, ∃ s',
       resumed (ThresholdDecrypt cap h sig) (Decrypted res) s
         = Some (None, s', [Message "Risk threshold decrypted"])
       ∧ clearRiskThreshold (hook s')
         = Some {| handle := h; clear := res_get res h |}
       ∧ flag Decrypting (busyRef (hook s')) = false).
Proof.
  apply isStale_true in Hchanged.
  split_and!.
  - intros hash receipt.
    cbv [resumed resume continue option_bind mbind]. cmd_unfold.
    cbv beta iota zeta. rewrite Hchanged. cbv beta iota zeta. simpl.
    eexists. by split_and!.
  - intros h sig.
    cbv [resumed resume continue option_bind mbind]. cmd_unfold.
    cbv beta iota zeta. rewrite Hchanged. cbv beta iota zeta. simpl.
    eexists. by split_and!.
  - intros h sig res. eexists. by split_and!.
Qed.

(** Bob's session is the current one when Alice's signature for the
    threshold is there. *)
Lemma threshold_decryption_session_checks_witness :
  ∃ s',
    resumed (ThresholdSign alice_session "0xR2") (Signature (Some alice_sig))
      (state_after threshold_then_bob)
    = Some (None, s', [Message "Ignore threshold decrypt"])
    ∧ clearRiskThreshold (hook s') = None.
Proof.
  destruct (threshold_decryption_session_checks alice_session
              (state_after threshold_then_bob)) as (_ & H & _).
  - left. vm_compute. discriminate.
  - destruct (H "0xR2" alice_sig) as (s' & E & C & _).
    exists s'. split; [exact E |]. rewrite C. vm_compute. reflexivity.
Defined.

(** * Properties of the generating script *)

Lemma collect_app (dirs1 dirs2 : list GenAbi.ChainDir) :
  GenAbi.collect (dirs1 ++ dirs2)
  = ((GenAbi.collect dirs1).1 ++ (GenAbi.collect dirs2).1,
     (GenAbi.collect dirs1).2 ++ (GenAbi.collect dirs2).2).
Proof.
  induction dirs1 as [| d rest IH]; simpl.
  - by destruct (GenAbi.collect dirs2).
  - rewrite IH. destruct (GenAbi.collect rest) as [ds ls]. simpl.
    destruct (GenAbi.dir_isDirectory d); [| done].
    by destruct (GenAbi.visit d).
Qed.

(** X17.  [collectDeployments] goes through the listing in order and
    treats every entry by itself: what it collects and prints for a
    listing is what it collects and prints for its parts, one after the
    other.  An entry that is not a directory yields nothing.  A directory
    yields one deployment, named after it, exactly when its
    [StableMonitor.json] parses to a value with a non-empty address and an
    ABI and a chain id is detected; otherwise it yields exactly one line,
    which gives the reason: no deployment file; a file that does not
    parse (or parses to [null], once a chain id is detected); no chain id
    detected; or an address or ABI that is missing or empty.  Without a
    [deployments] directory it collects nothing and says so. *)
Theorem collectDeployments_accounts_for_directories :
  (∀ dirs1 dirs2,
     GenAbi.collectDeployments (Some (dirs1 ++ dirs2))
     = ((GenAbi.collectDeployments (Some dirs1)).1
        ++ (GenAbi.collectDeployments (Some dirs2)).1,
        (GenAbi.collectDeployments (Some dirs1)).2
        ++ (GenAbi.collectDeployments (Some dirs2)).2))
  ∧ (∀ d,
       let name := GenAbi.dir_name d in
       let detected := GenAbi.detectChainId (GenAbi.dir_chainIdFile d) name in
       let r := GenAbi.collectDeployments (Some [d]) in
       (r = ([], []) ∨ (∃ dep, r = ([dep], [])) ∨ (∃ l, r = ([], [l])))
       ∧ (r = ([], []) ↔ GenAbi.dir_isDirectory d = false)
       ∧ (∀ dep, r = ([dep], []) ↔
            GenAbi.dir_isDirectory d = true
            ∧ GenAbi.dep_chainName dep = name
            ∧ GenAbi.dep_address dep ≠ ""
            ∧ ∃ f, GenAbi.dir_deployment d = Some (GenAbi.JsonValue f)
                   ∧ detected (GenAbi.JsonValue f)
                     = Some (GenAbi.dep_chainId dep)
                   ∧ GenAbi.file_address f = Some (GenAbi.dep_address dep)
                   ∧ GenAbi.file_abi f = Some (GenAbi.dep_abi dep))
       ∧ (∀ l, r = ([], [l]) ↔
            GenAbi.dir_isDirectory d = true
            ∧ ((l = GenAbi.SkipNoDeploymentFile name
                ∧ GenAbi.dir_deployment d = None)
               ∨ (l = GenAbi.SkipParseFailed name
                  ∧ (GenAbi.dir_deployment d = Some GenAbi.JsonThrows
                     ∨ (GenAbi.dir_deployment d = Some GenAbi.JsonNull
                        ∧ detected GenAbi.JsonNull ≠ None)))
               ∨ (l = GenAbi.SkipNoChainId name
                  ∧ ∃ parsed, GenAbi.dir_deployment d = Some parsed
                              ∧ parsed ≠ GenAbi.JsonThrows
                              ∧ detected parsed = None)
               ∨ (l = GenAbi.SkipInvalid name
                  ∧ ∃ f, GenAbi.dir_deployment d = Some (GenAbi.JsonValue f)
                         ∧ detected (GenAbi.JsonValue f) ≠ None
                         ∧ (GenAbi.file_address f = None
                            ∨ GenAbi.file_address f = Some ""
                            ∨ GenAbi.file_abi f = None)))))
  ∧ GenAbi.collectDeployments None = ([], [GenAbi.DeploymentsDirNotFound]).
Proof.
  split_and!; [intros; apply collect_app | | done].
  intros d name detected r. subst r. simpl.
  destruct (GenAbi.dir_isDirectory d) eqn:Ed.
  2: { split_and!.
       - by left.
       - done.
       - intros dep. split; [done | by intros [? _]].
       - intros l. split; [done | by intros [? _]]. }
  unfold GenAbi.visit. fold name. fold (detected).
  destruct (GenAbi.dir_deployment d) as [[| | f] |] eqn:Ej.
  - split_and!; [eauto | done | split; [done | naive_solver] |].
    intros l. split.
    + intros [= <-]. split; [done |]. right. left. eauto.
    + intros [_ H]. naive_solver.
  - destruct (detected GenAbi.JsonNull) as [c |] eqn:Ec.
    + split_and!; [eauto | done | split; [done | naive_solver] |].
      intros l. split.
      * intros [= <-]. split; [done |]. right. left. split; [done |]. right. done.
      * intros [_ H]. naive_solver.
    + split_and!; [eauto | done | split; [done | naive_solver] |].
      intros l. split.
      * intros [= <-]. split; [done |]. right. right. left. split; [done |]. eauto.
      * intros [_ H]. naive_solver.
  - destruct (detected (GenAbi.JsonValue f)) as [c |] eqn:Ec.
    + destruct (GenAbi.file_address f) as [address |] eqn:Ea;
        [destruct (GenAbi.file_abi f) as [abi |] eqn:Eb;
         [unfold truthy; destruct (bool_decide (address = "")) eqn:Ee; simpl |] |].
      * apply bool_decide_eq_true in Ee as ->.
        split_and!; [eauto | done | split; [done | naive_solver] |].
        intros l. split.
        -- intros [= <-]. split; [done |]. do 3 right. split; [done |].
           exists f. split_and!; [done | congruence | auto].
        -- intros [_ H]. naive_solver.
      * apply bool_decide_eq_false in Ee.
        split_and!; [eauto | done | | intros l; split; [done | naive_solver]].
        intros dep. split.
        -- intros [= <-]. simpl. split_and!; [done | done | done |].
           exists f. by rewrite Ea, Eb.
        -- intros (_ & Hn & Hne & f' & [= <-] & Hc & Ha' & Hb').
           destruct dep. simpl in *. congruence.
      * split_and!; [eauto | done | split; [done | naive_solver] |].
        intros l. split.
        -- intros [= <-]. split; [done |]. do 3 right. split; [done |].
           exists f. split_and!; [done | congruence | auto].
        -- intros [_ H]. naive_solver.
      * split_and!; [eauto | done | split; [done | naive_solver] |].
        intros l. split.
        -- intros [= <-]. split; [done |]. do 3 right. split; [done |].
           exists f. split_and!; [done | congruence | auto].
        -- intros [_ H]. naive_solver.
    + split_and!; [eauto | done | split; [done | naive_solver] |].
      intros l. split.
      * intros [= <-]. split; [done |]. right. right. left. split; [done |]. eauto.
      * intros [_ H]. naive_solver.
  - split_and!; [eauto | done | split; [done | naive_solver] |].
    intros l. split.
    + intros [= <-]. split; [done |]. left. done.
    + intros [_ H]. naive_solver.
Qed.

Lemma collectDeployments_accounts_for_directories_witness :
  GenAbi.collectDeployments (Some [hardhat_dir])
  = ([ {| GenAbi.dep_chainId := 31337; GenAbi.dep_chainName := "hardhat";
          GenAbi.dep_address := "0xA"; GenAbi.dep_abi := "[]" |} ], []).
Proof.
  destruct collectDeployments_accounts_for_directories as (_ & S & _).
  destruct (S hardhat_dir) as (_ & _ & D & _). apply D.
  split_and!; [reflexivity | reflexivity | discriminate |].
  eexists. split_and!; reflexivity.
Defined.

Lemma abis_differ_spec (ds : list GenAbi.Deployment) :
  GenAbi.abis_differ ds = true ↔
  ∃ first rest d, ds = first :: rest ∧ d ∈ rest
                  ∧ GenAbi.dep_abi d ≠ GenAbi.dep_abi first.
Proof.
  destruct ds as [| first rest]; simpl.
  - split; [done | by intros (? & ? & ? & ? & _)].
  - rewrite existsb_exists. split.
    + intros (d & Hin & Hne). exists first, rest, d.
      apply negb_true_iff, bool_decide_eq_false in Hne.
      split_and!; [done | by apply list_elem_of_In | done].
    + intros (f & r & d & [= <- <-] & Hin & Hne). exists d.
      split; [by apply list_elem_of_In |].
      by apply negb_true_iff, bool_decide_eq_false.
Qed.

(** X18.  The script ends in one of three ways, and the collected
    deployments decide which.  When one of them has an ABI other than that
    of the first, it prints that the ABIs differ and exits with code 1.
    When nothing was collected, it prints that there is nothing to
    generate and exits with code 0.  When all collected deployments have
    the ABI of the first, it writes that ABI and the address table built
    from them, after printing the two file names and the chains.  In each
    case the lines of [collectDeployments] come first. *)
Theorem main_outcome (deploymentsDir : option (list GenAbi.ChainDir)) :
  let ds := (GenAbi.collectDeployments deploymentsDir).1 in
  let ls := (GenAbi.collectDeployments deploymentsDir).2 in
  let differ := ∃ first rest d, ds = first :: rest ∧ d ∈ rest
                                ∧ GenAbi.dep_abi d ≠ GenAbi.dep_abi first in
  (differ → GenAbi.main deploymentsDir
            = (GenAbi.Exit 1, ls ++ [GenAbi.DifferentABIs]))
  ∧ (ds = [] → GenAbi.main deploymentsDir
               = (GenAbi.Exit 0, ls ++ [GenAbi.NoDeployments]))
  ∧ (∀ first rest,
       ds = first :: rest →
       (∀ d, d ∈ rest → GenAbi.dep_abi d = GenAbi.dep_abi first) →
       GenAbi.main deploymentsDir
       = (GenAbi.Written (GenAbi.dep_abi first) (GenAbi.addressesObj ds),
          ls ++ [GenAbi.GeneratedABI; GenAbi.GeneratedAddresses;
                 GenAbi.AddressesForChains
                   ((λ d, (GenAbi.dep_chainName d, GenAbi.dep_chainId d))
                    <$> ds)]))
  ∧ (differ ∨ ds = []
     ∨ ∃ first rest,
         ds = first :: rest
         ∧ ∀ d, d ∈ rest → GenAbi.dep_abi d = GenAbi.dep_abi first).
Proof.
  unfold GenAbi.main. simpl.
  destruct (GenAbi.collectDeployments deploymentsDir) as [ds ls]. simpl.
  pose proof (abis_differ_spec ds) as Hd.
  destruct (GenAbi.abis_differ ds) eqn:E.
  - assert (D : ∃ first rest d, ds = first :: rest ∧ d ∈ rest
                  ∧ GenAbi.dep_abi d ≠ GenAbi.dep_abi first) by by apply Hd.
    split_and!; [done | | | by left].
    + intros ->. by destruct D as (? & ? & ? & ? & _).
    + intros first rest -> Hall. destruct D as (f & r & d & [= <- <-] & Hin & Hne).
      by specialize (Hall d Hin).
  - assert (N : ¬ ∃ first rest d, ds = first :: rest ∧ d ∈ rest
                      ∧ GenAbi.dep_abi d ≠ GenAbi.dep_abi first).
    { intros H. apply Hd in H. done. }
    split_and!; [done | by intros -> | by intros first rest -> _ |].
    right. destruct ds as [| first rest]; [by left | right].
    exists first, rest. split; [done |]. intros d Hin.
    destruct (decide (GenAbi.dep_abi d = GenAbi.dep_abi first)); [done |].
    exfalso. apply N. eauto 10.
Qed.

Lemma main_outcome_witness :
  (GenAbi.main (Some listing)).1
  = GenAbi.Written "[]" (GenAbi.addressesObj local_twice).
Proof.
  destruct (main_outcome (Some listing)) as (_ & _ & W & _).
  rewrite (W _ _ eq_refl); [reflexivity |].
  intros d Hd. apply list_elem_of_singleton in Hd as ->. reflexivity.
Defined.

Lemma addressesObj_fold (ds : list GenAbi.Deployment) : ∀ (acc : gmap Z Entry) c,
  foldl (λ obj d, <[GenAbi.dep_chainId d := GenAbi.entry_of d]> obj) acc ds !! c
  = match GenAbi.last_for c ds with
    | Some d => Some (GenAbi.entry_of d)
    | None => acc !! c
    end.
Proof.
  unfold GenAbi.last_for.
  induction ds as [| d ds IH]; intros acc c; simpl; [done |].
  rewrite IH. rewrite filter_cons. case_decide as E.
  - rewrite last_cons. destruct (last (filter _ ds)); [done |].
    subst c. by rewrite lookup_insert_eq.
  - destruct (last (filter _ ds)); [done |]. by rewrite lookup_insert_ne.
Qed.

(** X19.  In the generated address table the entry of a chain id is that
    of the last collected deployment with this chain id, with its address,
    chain id and directory name; a chain id no deployment has is not in
    the table.  So of two directories that resolve to one chain id (as
    [localhost], [hardhat] and [anvil] all do), the one listed later
    wins. *)
Theorem addressesObj_last_wins (ds : list GenAbi.Deployment) (c : Z) :
  GenAbi.addressesObj ds !! c = GenAbi.entry_of <$> GenAbi.last_for c ds.
Proof.
  unfold GenAbi.addressesObj. rewrite addressesObj_fold.
  by destruct (GenAbi.last_for c ds).
Qed.

Lemma last_for_chainId c ds d :
  GenAbi.last_for c ds = Some d → GenAbi.dep_chainId d = c.
Proof.
  unfold GenAbi.last_for. intros H%last_Some_elem_of.
  by apply list_elem_of_filter in H as [? _].
Qed.

(** X20.  With the address table the script generates, the hook's lookup
    of a non-zero chain id reports that same chain id back, and it yields
    an address exactly when the last collected deployment for the chain
    has an address other than the zero address. *)
Theorem generated_table_lookup (ds : list GenAbi.Deployment) (c : Z)
    (Hc : c ≠ 0%Z) :
  let info := getStableMonitorByChainId (GenAbi.addressesObj ds) (Some c) in
  info_chainId info = Some c
  ∧ ∀ a, info_address info = Some a ↔
         ∃ d, GenAbi.last_for c ds = Some d ∧ GenAbi.dep_address d = a
              ∧ a ≠ ZeroAddress.
Proof.
  simpl. unfold getStableMonitorByChainId.
  rewrite (bool_decide_false _ Hc), addressesObj_last_wins.
  destruct (GenAbi.last_for c ds) as [d |] eqn:E; simpl.
  - pose proof (last_for_chainId _ _ _ E) as Ec.
    case_bool_decide as Ea; simpl.
    + split; [done |]. intros a. split; [done |].
      intros (d' & [= <-] & <- & Hne). done.
    + split; [by rewrite Ec |]. intros a. split.
      * intros [= <-]. eauto.
      * by intros (d' & [= <-] & <- & _).
  - split; [done |]. intros a. split; [done | by intros (? & ? & _)].
Qed.

Lemma generated_table_lookup_witness :
  (31337 ≠ 0)%Z
  ∧ info_address
      (getStableMonitorByChainId (GenAbi.addressesObj local_twice)
         (Some 31337%Z))
    = Some "0xB".
Proof.
  split; [lia |].
  apply (generated_table_lookup local_twice 31337 ltac:(lia)).
  eexists. split_and!; [vm_compute; reflexivity | reflexivity | discriminate].
Defined.

(** * Properties of the contract *)

Lemma clear32_arithmetic : Contract.Arithmetic Contract.clear32.
Proof.
  split; simpl.
  - apply Zmod.add_comm.
  - apply Zmod.add_assoc.
  - intros a. apply Zmod.add_0_r.
  - intros a b. rewrite <- Zmod.add_sub_r, Zmod.sub_same. apply Zmod.add_0_r.
  - intros a b. rewrite Zmod.add_sub_l, <- Zmod.add_sub_r, Zmod.sub_same.
    apply Zmod.add_0_r.
Qed.

Section ContractProperties.
Context {L : Contract.Library} {A : Contract.Arithmetic L}.

Lemma add_cancel (a b c : Contract.euint32) :
  Contract.add a c = Contract.add b c → a = b.
Proof.
  intros H. rewrite <- (Contract.add_sub a c), H. apply Contract.add_sub.
Qed.

Lemma add_swap (a b c : Contract.euint32) :
  Contract.add (Contract.add a b) c = Contract.add (Contract.add a c) b.
Proof.
  rewrite <- !Contract.add_assoc. f_equal. apply Contract.add_comm.
Qed.

Lemma sum_insert (m : gmap Contract.address Contract.euint32) k v :
  let sum := map_fold (λ _ v acc, Contract.add v acc) (Contract.asEuint32 0) in
  Contract.add (sum (<[k := v]> m)) (Contract.value (m !! k))
  = Contract.add (sum m) v.
Proof.
  simpl.
  assert (C : ∀ (m' : gmap Contract.address Contract.euint32)
                (j1 j2 : Contract.address) (z1 z2 y : Contract.euint32),
            j1 ≠ j2 → m' !! j1 = Some z1 → m' !! j2 = Some z2 →
            Contract.add z1 (Contract.add z2 y)
            = Contract.add z2 (Contract.add z1 y)).
  { intros _ _ _ z1 z2 y _ _ _.
    rewrite !Contract.add_assoc. f_equal. apply Contract.add_comm. }
  destruct (m !! k) as [y |] eqn:E; simpl.
  - rewrite <- (insert_delete_eq m k v).
    rewrite map_fold_insert_L; [| apply C | apply lookup_delete_eq].
    rewrite (map_fold_delete_L _ _ k y m); [| apply C | done].
    rewrite (Contract.add_comm v), (Contract.add_comm y). apply add_swap.
  - rewrite map_fold_insert_L; [| apply C | done].
    rewrite Contract.add_zero. apply Contract.add_comm.
Qed.

Lemma call_keeps_sum (st st' : Contract.State) sender c r events :
  Contract.call sender c st = Some (st', r, events) →
  Contract.value (Contract._totalSupply st) = Contract.sum_of_balances st →
  Contract.value (Contract._totalSupply st') = Contract.sum_of_balances st'.
Proof.
  unfold Contract.sum_of_balances.
  destruct c; simpl; intros Hc Hs; try by simplify_eq.
  - unfold Contract.issue in Hc. repeat case_match; try done.
    destruct (Contract.fromExternal _ _) as [amt |]; simplify_eq/=.
    rewrite Hs.
    apply (add_cancel _ _ (Contract.value (Contract._balances st !! user))).
    rewrite sum_insert, Contract.add_assoc. apply add_swap.
  - unfold Contract.transfer in Hc. repeat case_match; try done.
    destruct (Contract.fromExternal _ _) as [amt |]; simplify_eq/=.
    rewrite Hs.
    set (b1 := <[sender := _]> (Contract._balances st)).
    apply (add_cancel _ _ (Contract.value (b1 !! to))).
    rewrite sum_insert, Contract.add_assoc, add_swap. f_equal.
    apply (add_cancel _ _ (Contract.value (Contract._balances st !! sender))).
    rewrite add_swap. subst b1. rewrite sum_insert.
    rewrite <- Contract.add_assoc. f_equal. symmetry. apply Contract.sub_add.
  - unfold Contract.hasSufficientBalance in Hc.
    destruct (Contract.fromExternal _ _); by simplify_eq/=.
  - unfold Contract.updateRiskThreshold in Hc. repeat case_match; try done.
    destruct (Contract.fromExternal _ _); by simplify_eq/=.
Qed.

Lemma Live_transactions txs : ∀ st : Contract.State,
  Contract.Live st → Contract.Live (transactions txs st).
Proof.
  induction txs as [| [sender c] txs IH]; intros st Hl; simpl; [done |].
  apply IH. destruct (Contract.call sender c st) as [[[st' r] events] |] eqn:E;
    [| done].
  by eapply Contract.Live_call.
Qed.

(** X21.  In every state of a deployed contract the total supply is the
    sum of all balances, in the arithmetic of the library: [issue] adds
    the amount to one balance and to the total supply, [transfer] takes
    from one balance what it adds to another, and nothing else writes
    either. *)
Theorem totalSupply_is_sum_of_balances (st : Contract.State)
    (Hlive : Contract.Live st) :
  Contract.value (Contract._totalSupply st) = Contract.sum_of_balances st.
Proof.
  induction Hlive as [chainid issuer thr proof st Hc | st sender c st' r ev _ IH Hc].
  - unfold Contract.constructor in Hc.
    destruct (if bool_decide (chainid = 31337%Z) then _ else _); simplify_eq/=.
    unfold Contract.sum_of_balances. simpl. by rewrite map_fold_empty.
  - by eapply call_keeps_sum.
Qed.

End ContractProperties.

Lemma totalSupply_is_sum_of_balances_witness :
  Contract.Live overdrawn
  ∧ Contract.value (Contract._totalSupply overdrawn)
    = Contract.sum_of_balances overdrawn.
Proof.
  assert (Hlive : Contract.Live overdrawn).
  { apply Live_transactions.
    apply (@Contract.Live_deployed Contract.clear32 31337%Z 1%N 0%Z []).
    reflexivity. }
  split; [exact Hlive |].
  exact (@totalSupply_is_sum_of_balances Contract.clear32 clear32_arithmetic
           overdrawn Hlive).
Defined.

(** X22.  No call changes the issuer.  A call by anyone but the issuer
    changes neither the total supply nor the risk threshold.  A balance
    changes only by [issue], called by the issuer, for the account issued
    to, and by [transfer], for the sender and the recipient. *)
Theorem calls_change_only_what_they_may {L : Contract.Library}
    (st st' : Contract.State) sender c r events
    (Hcall : Contract.call sender c st = Some (st', r, events)) :
  Contract._issuer st' = Contract._issuer st
  ∧ (sender ≠ Contract._issuer st →
     Contract._totalSupply st' = Contract._totalSupply st
     ∧ Contract._riskThreshold st' = Contract._riskThreshold st)
  ∧ ∀ u, Contract._balances st' !! u ≠ Contract._balances st !! u →
         match c with
         | Contract.Issue user _ _ =>
             u = user ∧ sender = Contract._issuer st
         | Contract.DoTransfer to _ _ => u = sender ∨ u = to
         | _ => False
         end.
Proof.
  destruct c; simpl in Hcall; try by simplify_eq.
  - unfold Contract.issue in Hcall.
    case_bool_decide as Hi; simpl in Hcall; [| done].
    case_bool_decide; simpl in Hcall; [| done].
    destruct (Contract.fromExternal _ _) as [amt |]; simplify_eq/=.
    split_and!; [done | done |]. intros u Hu. split; [| done].
    destruct (decide (u = user)) as [| Hne]; [done |].
    by rewrite lookup_insert_ne in Hu.
  - unfold Contract.transfer in Hcall.
    case_bool_decide; simpl in Hcall; [| done].
    case_bool_decide; simpl in Hcall; [| done].
    destruct (Contract.fromExternal _ _) as [amt |]; simplify_eq/=.
    split_and!; [done | done |]. intros u Hu.
    destruct (decide (u = to)) as [| Hto]; [by right |].
    destruct (decide (u = sender)) as [| Hs]; [by left |].
    by rewrite !lookup_insert_ne in Hu.
  - unfold Contract.hasSufficientBalance in Hcall.
    destruct (Contract.fromExternal _ _); by simplify_eq/=.
  - unfold Contract.updateRiskThreshold in Hcall.
    case_bool_decide as Hi; simpl in Hcall; [| done].
    destruct (Contract.fromExternal _ _) as [thr |]; simplify_eq/=.
    split_and!; [done | done | done].
Qed.

Lemma calls_change_only_what_they_may_witness :
  ∃ st' r events,
    Contract.call 2%N (@Contract.DoTransfer Contract.clear32 3%N 4%Z [Byte.x01])
      deployed_locally = Some (st', r, events)
    ∧ Contract._issuer st' = 1%N.
Proof.
  assert (E : Contract.call 2%N
                (@Contract.DoTransfer Contract.clear32 3%N 4%Z [Byte.x01])
                deployed_locally
              = Some (transactions
                        [(2%N, @Contract.DoTransfer Contract.clear32 3%N 4%Z
                                 [Byte.x01])] deployed_locally,
                      Contract.Nothing,
                      [Contract.Transfer 2%N 3%N (Contract.asEuint32 4)]))
    by reflexivity.
  eexists _, _, _. split; [exact E |].
  exact (proj1 (calls_change_only_what_they_may _ _ _ _ _ _ E)).
Defined.

(** X23.  [transfer] never looks at a balance: it reverts exactly when the
    recipient is the zero address or the sender, or the proof of the
    amount does not verify.  Otherwise it emits one [Transfer] event,
    takes the amount from the sender's balance and adds it to the
    recipient's in the arithmetic of the library, whatever the sender
    holds, and leaves every other balance and the total supply as they
    were. *)
Theorem transfer_checks_no_balance {L : Contract.Library}
    (st : Contract.State) sender to amount amountProof :
  (Contract.call sender (Contract.DoTransfer to amount amountProof) st = None ↔
   to = 0%N ∨ to = sender ∨ Contract.fromExternal amount amountProof = None)
  ∧ ∀ amt,
      to ≠ 0%N → to ≠ sender →
      Contract.fromExternal amount amountProof = Some amt →
      ∃ st',
        Contract.call sender (Contract.DoTransfer to amount amountProof) st
        = Some (st', Contract.Nothing, [Contract.Transfer sender to amt])
        ∧ Contract._balances st' !! sender
          = Some (Contract.sub
                    (Contract.value (Contract._balances st !! sender)) amt)
        ∧ Contract._balances st' !! to
          = Some (Contract.add
                    (Contract.value (Contract._balances st !! to)) amt)
        ∧ (∀ u, u ≠ sender → u ≠ to →
                Contract._balances st' !! u = Contract._balances st !! u)
        ∧ Contract._totalSupply st' = Contract._totalSupply st.
Proof.
  simpl. unfold Contract.transfer. split.
  - case_bool_decide as H0; simpl.
    2: { split; [intros _; left | done]. by destruct (decide (to = 0%N)). }
    case_bool_decide as Hs; simpl.
    2: { split; [intros _; right; left | done]. by destruct (decide (to = sender)). }
    destruct (Contract.fromExternal _ _); simpl.
    + split; [done |]. by intros [? | [? | ?]].
    + split; [auto | done].
  - intros amt H0 Hs ->. rewrite !bool_decide_true by done. simpl.
    eexists. split; [reflexivity |]. simpl.
    split_and!; [| | | done].
    + by rewrite lookup_insert_ne, lookup_insert_eq.
    + by rewrite lookup_insert_eq, lookup_insert_ne.
    + intros u ? ?. by rewrite !lookup_insert_ne.
Qed.

Lemma transfer_checks_no_balance_witness :
  ∃ st',
    Contract.call 3%N (@Contract.DoTransfer Contract.clear32 2%N 7%Z [Byte.x01])
      (transactions
         [(1%N, @Contract.Issue Contract.clear32 2%N 10%Z [Byte.x01]);
          (2%N, @Contract.DoTransfer Contract.clear32 3%N 4%Z [Byte.x01])]
         deployed_locally)
    = Some (st', Contract.Nothing,
            [Contract.Transfer 3%N 2%N (Contract.asEuint32 7)])
    ∧ Contract._balances st' !! 3%N = Some (Contract.asEuint32 (2 ^ 32 - 3)).
Proof.
  destruct (proj2 (transfer_checks_no_balance
                     (transactions
                        [(1%N, @Contract.Issue Contract.clear32 2%N 10%Z
                                 [Byte.x01]);
                         (2%N, @Contract.DoTransfer Contract.clear32 3%N 4%Z
                                 [Byte.x01])]
                        deployed_locally)
                     3%N 2%N 7%Z [Byte.x01])
              (Contract.asEuint32 7)
              ltac:(discriminate) ltac:(discriminate) eq_refl)
    as (st' & E & Hs & _).
  exists st'. split; [exact E |]. etrans; [exact Hs | reflexivity].
Defined.
